(** * Verification of the two scripts of work_py_scripts

    - [rename_files.py]  (Universal File Renamer)
    - [append_text.py]   (Combine Files In One File)

    Both scripts are embedded as executable Rocq functions, line numbers
    referring to the Python sources.

    How the embedding reads the programs:
    - a Python [str] is a [string]; its characters are the code points
      0..255 (the Latin-1 block of Unicode), on which [re.IGNORECASE]
      compares through the simple lower-case mapping and [\d] is [0-9];
    - the folder of the renamer is a finite map from the names of its
      direct children to nodes; names and extension tokens are plain file
      names (no path separator), paths are POSIX paths;
    - [print] appends to an explicit list of lines and never fails;
    - what the scripts take from their environment (the clock, the result of
      [glob], what reading a file returns, which system calls raise) is an
      explicit argument, so that every run is a function of its inputs;
    - the directory changes only through the script itself (single user, as
      the specification assumes). *)

From Stdlib Require Import Ascii String List Arith ZArith Lia Bool.
From Stdlib Require Import DecimalString DecimalNat Decimal.
From stdpp Require Import base option list gmap strings sorting.

(* ===================================================================== *)
(** * Part I: definitions                                                 *)
(* ===================================================================== *)

(** ** Characters and strings *)

(** Line feed, the only character that [.] does not match and the only one
    that [$] tolerates after the match. *)
Definition LF : ascii := Ascii.ascii_of_nat 10.

Definition is_digit (c : ascii) : bool :=
  let n := Ascii.nat_of_ascii c in ((48 <=? n) && (n <=? 57))%nat.

Definition not_newline (c : ascii) : bool := negb (Ascii.eqb c LF).

(** Simple lower-case mapping on code points 0..255: [A-Z] and the
    Latin-1 capitals U+00C0..U+00DE except the multiplication sign. *)
Definition lower (c : ascii) : ascii :=
  let n := Ascii.nat_of_ascii c in
  if (((65 <=? n) && (n <=? 90))
      || ((192 <=? n) && (n <=? 222) && negb (n =? 215)))%nat
  then Ascii.ascii_of_nat (n + 32) else c.

Fixpoint str_all (p : ascii -> bool) (s : string) : bool :=
  match s with
  | EmptyString => true
  | String c s' => p c && str_all p s'
  end.

Fixpoint str_map (f : ascii -> ascii) (s : string) : string :=
  match s with
  | EmptyString => EmptyString
  | String c s' => String (f c) (str_map f s')
  end.

Fixpoint str_take (n : nat) (s : string) : string :=
  match n, s with
  | S n', String c s' => String c (str_take n' s')
  | _, _ => EmptyString
  end.

Fixpoint str_drop (n : nat) (s : string) : string :=
  match n, s with
  | S n', String _ s' => str_drop n' s'
  | _, _ => s
  end.

(** [s.lstrip('.')] *)
Fixpoint lstrip_dot (s : string) : string :=
  match s with
  | String c s' => if Ascii.eqb c "."%char then lstrip_dot s' else s
  | EmptyString => EmptyString
  end.

(** [s.endswith('\n')] *)
Fixpoint ends_with_newline (s : string) : bool :=
  match s with
  | EmptyString => false
  | String c EmptyString => Ascii.eqb c LF
  | String _ s' => ends_with_newline s'
  end.

(** [s.count('\n')] *)
Fixpoint count_newlines (s : string) : nat :=
  match s with
  | EmptyString => 0
  | String c s' => (if Ascii.eqb c LF then 1 else 0) + count_newlines s'
  end.

(** [str(n)] / [f"{n}"] for a non-negative integer. *)
Definition dec (n : nat) : string := NilEmpty.string_of_uint (Nat.to_uint n).

(** ** A backtracking matcher for the fragment of [re] the renamer uses

    The matcher follows the search order of Python's engine: alternatives
    are tried left to right, greedy quantifiers try the longest repetition
    first, and the first complete match wins.  [pre] is the text consumed
    so far, [rest] the text still to be read; the continuation [k] stands
    for the remainder of the pattern. *)

Inductive regex : Type :=
| Any                        (* [.]   any character except line feed *)
| Digit                      (* [\d]  *)
| Lit (c : ascii)            (* literal character, compared under IGNORECASE *)
| Rep1 (r : regex)           (* [r+]  greedy, [r] a single-character pattern *)
| Opt (r : regex)            (* [r?]  greedy *)
| Cat (r1 r2 : regex)
| Grp (n : nat) (r : regex)  (* capturing group number [n] *)
| Bol                        (* [^] *)
| Eol                        (* [$] *)
| Eps.

Definition groups : Type := nat -> option string.

Definition no_groups : groups := fun _ => None.

Definition set_group (n : nat) (s : string) (g : groups) : groups :=
  fun m => if Nat.eqb m n then Some s else g m.

(** Character test of a single-character pattern; [None] for patterns that
    are not a single character. *)
Definition char_test (r : regex) : option (ascii -> bool) :=
  match r with
  | Any => Some not_newline
  | Digit => Some is_digit
  | Lit c => Some (fun x => Ascii.eqb (lower x) (lower c))
  | _ => None
  end.

Definition cont : Type := groups -> string -> string -> option groups.

(** Greedy [p*]: consume while [p] holds, then give characters back one by
    one until the continuation succeeds. *)
Fixpoint star (p : ascii -> bool) (g : groups) (pre rest : string) (k : cont)
  : option groups :=
  match rest with
  | String c rest' =>
      if p c then
        match star p g (pre +:+ String c "") rest' k with
        | Some r => Some r
        | None => k g pre rest
        end
      else k g pre rest
  | EmptyString => k g pre rest
  end.

Definition step1 (p : ascii -> bool) (g : groups) (pre rest : string) (k : cont)
  : option groups :=
  match rest with
  | String c rest' => if p c then k g (pre +:+ String c "") rest' else None
  | EmptyString => None
  end.

Fixpoint run (r : regex) (g : groups) (pre rest : string) (k : cont)
  : option groups :=
  match r with
  | Any => step1 not_newline g pre rest k
  | Digit => step1 is_digit g pre rest k
  | Lit c => step1 (fun x => Ascii.eqb (lower x) (lower c)) g pre rest k
  | Rep1 r' =>
      match char_test r' with
      | Some p => step1 p g pre rest (fun g' pre' rest' => star p g' pre' rest' k)
      | None => None
      end
  | Opt r' =>
      match run r' g pre rest k with
      | Some res => Some res
      | None => k g pre rest
      end
  | Cat r1 r2 => run r1 g pre rest (fun g' pre' rest' => run r2 g' pre' rest' k)
  | Grp n r' =>
      run r' g pre rest
          (fun g' pre' rest' =>
             k (set_group n (str_drop (String.length pre) pre') g') pre' rest')
  | Bol => if String.eqb pre "" then k g pre rest else None
  | Eol =>
      if String.eqb rest "" || String.eqb rest (String LF "")
      then k g pre rest else None
  | Eps => k g pre rest
  end.

(** [re.escape(s)] compiled: the characters of [s], each a literal. *)
Fixpoint literal (s : string) : regex :=
  match s with
  | EmptyString => Eps
  | String c s' => Cat (Lit c) (literal s')
  end.

(** [compiled.match(s)]: match at the start of [s]; the match may end
    before the end of [s]. *)
Definition re_match (r : regex) (s : string) : option groups :=
  run r no_groups "" s (fun g _ _ => Some g).

(** ** rename_files.py *)

(** [rf'^(.+)\.{re.escape(old_ext)}(?:\.?(\d+))?$'] with [re.IGNORECASE]. *)
Definition pattern (old_ext : string) : regex :=
  Cat Bol
 (Cat (Grp 1 (Rep1 Any))
 (Cat (Lit "."%char)
 (Cat (literal old_ext)
 (Cat (Opt (Cat (Opt (Lit "."%char)) (Grp 2 (Rep1 Digit))))
      Eol)))).

(** [m = pattern.match(name)], then [m.group(1), m.group(2)]. *)
Definition match_name (old_ext name : string) : option (string * option string) :=
  match re_match (pattern old_ext) name with
  | Some g =>
      match g 1 with
      | Some base_name => Some (base_name, g 2)
      | None => None
      end
  | None => None
  end.

(** Lines 63-66: the new name from the two captured groups. *)
Definition new_name (new_ext : string) (m : string * option string) : string :=
  let '(base_name, number) := m in
  match number with
  | Some num =>
      if String.eqb num "" then base_name +:+ "." +:+ new_ext
      else base_name +:+ "." +:+ num +:+ "." +:+ new_ext
  | None => base_name +:+ "." +:+ new_ext
  end.

(** *** The folder *)

Inductive node : Type :=
| File (data : string)
| Dir.

(** What [folder_path] designates: nothing, something that is not a
    directory, or a directory with its direct children.  Names are plain
    file names: they, and the extension tokens, contain no path separator. *)
Inductive location : Type :=
| Missing
| NotADirectory
| Folder (entries : gmap string node).

Definition path_exists (d : gmap string node) (name : string) : bool :=
  match d !! name with Some _ => true | None => false end.

Definition is_file (d : gmap string node) (name : string) : bool :=
  match d !! name with Some (File _) => true | _ => false end.

(** [os.rename(src, dst)] inside the folder, when it succeeds. *)
Definition os_rename (d : gmap string node) (src dst : string) : gmap string node :=
  match d !! src with
  | Some nd => <[dst := nd]> (delete src d)
  | None => d
  end.

(** The operating system may refuse a rename (permissions, name too
    long, ...): [Some msg] is the text of the exception it raises. *)
Definition rename_oracle : Type := gmap string node -> string -> string -> option string.

(** Stable insertion sort, the order of Python's [sorted] / [list.sort]. *)
Fixpoint insert_by {A} (leb : A -> A -> bool) (x : A) (l : list A) : list A :=
  match l with
  | [] => [x]
  | y :: l' => if leb x y then x :: l else y :: insert_by leb x l'
  end.

Fixpoint sort_by {A} (leb : A -> A -> bool) (l : list A) : list A :=
  match l with
  | [] => []
  | x :: l' => insert_by leb x (sort_by leb l')
  end.

(** [sorted(folder.iterdir())], as names: paths of one folder are ordered
    by their last component, compared code point by code point. *)
Definition iterdir_sorted (d : gmap string node) : list string :=
  sort_by String.leb (map fst (map_to_list d)).

(** [PurePath.suffix] and [PurePath.stem] (Python 3.4 to 3.13):
    [i = name.rfind('.')], a suffix only when [0 < i < len(name) - 1]. *)
Fixpoint rfind_dot (s : string) : option nat :=
  match s with
  | EmptyString => None
  | String c s' =>
      match rfind_dot s' with
      | Some i => Some (S i)
      | None => if Ascii.eqb c "."%char then Some 0 else None
      end
  end.

Definition has_suffix_at (name : string) (i : nat) : bool :=
  ((0 <? i) && (i <? String.length name - 1))%nat.

Definition suffix (name : string) : string :=
  match rfind_dot name with
  | Some i => if has_suffix_at name i then str_drop i name else ""
  | None => ""
  end.

Definition stem (name : string) : string :=
  match rfind_dot name with
  | Some i => if has_suffix_at name i then str_take i name else name
  | None => name
  end.

(** [f"{stem}_{i}{suffix}"] *)
Definition candidate (stm sfx : string) (i : nat) : string :=
  stm +:+ "_" +:+ dec i +:+ sfx.

(** Lines 74-80: the [while True] loop, with [fuel] bounding the number of
    iterations. *)
Fixpoint free_candidate (fuel : nat) (d : gmap string node)
         (stm sfx : string) (i : nat) : option string :=
  match fuel with
  | O => None
  | S fuel' =>
      let c := candidate stm sfx i in
      if path_exists d c then free_candidate fuel' d stm sfx (S i)
      else Some c
  end.

(** Lines 68-80: the target actually used.  A directory of [n] entries
    cannot hold [n + 1] distinct candidates, so [n + 1] iterations are
    enough (lemma [resolve_target_total]). *)
Definition resolve_target (d : gmap string node) (target : string) : option string :=
  if path_exists d target
  then free_candidate (S (size d)) d (stem target) (suffix target) 1
  else Some target.

Record rstate : Type := RState {
  rs_dir : gmap string node;     (* the live directory *)
  rs_count : nat;                (* renamed_count *)
  rs_out : list string           (* lines printed so far *)
}.

Definition rename_line (dry_run : bool) (name target : string) : string :=
  (if dry_run then "[DRY RUN] " else "") +:+ "Renaming: " +:+ name +:+ " -> " +:+ target.

(** Body of the [for] loop (lines 54-92) for one entry of the listing.
    [old_ext] and [new_ext] are the tokens after [lstrip('.')]. *)
Definition rename_one (oracle : rename_oracle) (old_ext new_ext : string)
           (dry_run : bool) (st : rstate) (name : string) : option rstate :=
  if negb (is_file (rs_dir st) name) then Some st
  else
    match match_name old_ext name with
    | None => Some st
    | Some m =>
        match resolve_target (rs_dir st) (new_name new_ext m) with
        | None => None
        | Some target =>
            let out1 := rs_out st ++ [rename_line dry_run name target] in
            if dry_run then
              Some (RState (rs_dir st) (S (rs_count st)) out1)
            else
              match oracle (rs_dir st) name target with
              | None =>
                  Some (RState (os_rename (rs_dir st) name target)
                               (S (rs_count st)) out1)
              | Some e =>
                  Some (RState (rs_dir st) (rs_count st)
                               (out1 ++ ["  Error renaming " +:+ name +:+ ": " +:+ e]))
              end
        end
    end.

Fixpoint rename_loop (oracle : rename_oracle) (old_ext new_ext : string)
         (dry_run : bool) (st : rstate) (names : list string) : option rstate :=
  match names with
  | [] => Some st
  | name :: names' =>
      match rename_one oracle old_ext new_ext dry_run st name with
      | Some st' => rename_loop oracle old_ext new_ext dry_run st' names'
      | None => None
      end
  end.

Record rresult : Type := RResult {
  rr_count : nat;                (* the value returned *)
  rr_loc : location;             (* the folder afterwards *)
  rr_out : list string           (* the lines printed *)
}.

(** [rename_files(folder_path, old_ext, new_ext, dry_run)].  The listing is
    taken once, before the loop; existence checks read the live directory. *)
Definition rename_files (oracle : rename_oracle) (loc : location)
           (folder_path old_ext new_ext : string) (dry_run : bool)
  : option rresult :=
  match loc with
  | Missing =>
      Some (RResult 0 loc ["Error: Folder '" +:+ folder_path +:+ "' does not exist."])
  | NotADirectory =>
      Some (RResult 0 loc ["Error: '" +:+ folder_path +:+ "' is not a directory."])
  | Folder d =>
      let old_ext := lstrip_dot old_ext in
      let new_ext := lstrip_dot new_ext in
      match rename_loop oracle old_ext new_ext dry_run (RState d 0 [])
                        (iterdir_sorted d) with
      | Some st => Some (RResult (rs_count st) (Folder (rs_dir st)) (rs_out st))
      | None => None
      end
  end.

(** [main()] of rename_files.py, after argument parsing. *)
Definition renamer_main (oracle : rename_oracle) (loc : location)
           (folder old_ext new_ext : string) (dry_run : bool)
  : option rresult :=
  match rename_files oracle loc folder old_ext new_ext dry_run with
  | Some r =>
      let action := if dry_run then "would be renamed" else "renamed" in
      let line :=
        if Nat.eqb (rr_count r) 0
        then "No files matching '*." +:+ old_ext +:+ "*' found in " +:+ folder
        else "Total: " +:+ dec (rr_count r) +:+ " file(s) " +:+ action in
      Some (RResult (rr_count r) (rr_loc r) (rr_out r ++ [""; line]))
  | None => None
  end.

(** ** append_text.py *)

Definition nl : string := String LF "".

Fixpoint str_repeat (c : ascii) (n : nat) : string :=
  match n with
  | O => ""
  | S n' => String c (str_repeat c n')
  end.

(** ["=" * 80] *)
Definition rule80 : string := str_repeat "="%char 80.

(** [f"{n:,}"]: decimal digits in groups of three, counted from the right. *)
Fixpoint group3_rev (l : list ascii) (k : nat) : list ascii :=
  match l with
  | [] => []
  | c :: l' =>
      if Nat.eqb k 3 then ","%char :: c :: group3_rev l' 1
      else c :: group3_rev l' (S k)
  end.

Definition dec_commas (n : nat) : string :=
  string_of_list_ascii
    (rev (group3_rev (rev (list_ascii_of_string (dec n))) 0)).

Inductive exn : Type :=
| UnicodeDecodeError
| OtherError (msg : string).

(** One path returned by [glob] / [rglob]. *)
Record entry : Type := Entry {
  e_parts : list string;   (* the path below [source_path], one component each *)
  e_is_file : bool;        (* [f.is_file()] *)
  e_is_output : bool;      (* [f.resolve() == output_path.resolve()] *)
  e_ctime : Z;             (* [f.stat().st_ctime]; only its order matters *)
  e_size : nat;            (* [f.stat().st_size] *)
  e_read : exn + string    (* reading the file and its metadata (lines 80-86):
                              the exception raised, or the text [infile.read()]
                              returns, decoded with [errors='replace'] *)
}.

(** [file_path.name] *)
Definition e_name (f : entry) : string := List.last (e_parts f) "".

(** [file_path.relative_to(source_path)] as text. *)
Definition e_relpath (f : entry) : string := String.concat "/" (e_parts f).

(** What [source_dir] designates; a directory is given by what [glob] and
    [rglob] return for the pattern of the call. *)
Inductive source : Type :=
| SrcMissing
| SrcNotADirectory
| SrcDir (globbed rglobbed : list entry).

(** Everything the run takes from its environment. *)
Record cenv : Type := CEnv {
  now_text : string;                              (* [datetime.now().strftime(..)] *)
  source_abs : string;                            (* [source_path.absolute()] *)
  local_time : Z -> string;                       (* [fromtimestamp(t).strftime(..)] *)
  open_error : option string;                     (* [open(output_path, 'w')] raises *)
  write_error : list string -> string -> option string;
                                                  (* [outfile.write(s)] raises, given
                                                     what was written before *)
  close_error : list string -> option string      (* closing the file raises *)
}.

(** Lines printed by the combiner. *)
Inductive message : Type :=
| MsgNoDirectory (source_dir : string)
| MsgNotADirectory (source_dir : string)
| MsgNoFiles (file_pattern source_dir : string)
| MsgFound (n : nat) (sort_method : string)
| MsgOutputFile (output_file : string)
| MsgDashes
| MsgProcessed (name : string) (lines : nat)
| MsgSkipped (name : string)
| MsgErrorReading (name : string) (e : string)
| MsgErrorWriting (e : string)
| MsgSuccess (files lines : nat)
| MsgSavedTo (output_file : string)
| MsgFailed.

(** *** Writing to the output file: state and exceptions *)

Inductive outcome (A : Type) : Type :=
| Ok (a : A)
| Raise (e : exn).
Arguments Ok {A} a.
Arguments Raise {A} e.

(** A computation that writes to the open output file: the state is the
    list of texts written so far. *)
Definition W (A : Type) : Type := list string -> outcome A * list string.

Definition ret {A} (a : A) : W A := fun out => (Ok a, out).

Definition raise {A} (e : exn) : W A := fun out => (Raise e, out).

Definition bind {A B} (m : W A) (f : A -> W B) : W B :=
  fun out =>
    match m out with
    | (Ok a, out') => f a out'
    | (Raise e, out') => (Raise e, out')
    end.

Notation "'let*' x ':=' m 'in' k" := (bind m (fun x => k))
  (at level 10, x name, m at level 100, k at level 200).

(** [outfile.write(s)] *)
Definition write (env : cenv) (s : string) : W unit :=
  fun out =>
    match write_error env out s with
    | Some e => (Raise (OtherError e), out)
    | None => (Ok tt, out ++ [s])
    end.

Fixpoint write_all (env : cenv) (l : list string) : W unit :=
  match l with
  | [] => ret tt
  | s :: l' => let* _ := write env s in write_all env l'
  end.

(** Lines 70-75. *)
Definition header (env : cenv) (n : nat) (sort_method encoding : string) : list string :=
  [ "Combined file created: " +:+ now_text env +:+ nl;
    "Source directory: " +:+ source_abs env +:+ nl;
    "Total files: " +:+ dec n +:+ nl;
    "Sorted by: " +:+ sort_method +:+ nl;
    "Encoding: " +:+ encoding +:+ nl;
    rule80 +:+ nl +:+ nl ].

(** Lines 89-95. *)
Definition separator (env : cenv) (f : entry) (lines : nat) : string :=
  nl +:+ rule80 +:+ nl
  +:+ "FILE: " +:+ e_name f +:+ nl
  +:+ "Path: " +:+ e_relpath f +:+ nl
  +:+ "Size: " +:+ dec_commas (e_size f) +:+ " bytes" +:+ nl
  +:+ "Lines: " +:+ dec_commas lines +:+ nl
  +:+ "Created: " +:+ local_time env (e_ctime f) +:+ nl
  +:+ rule80 +:+ nl +:+ nl.

(** Lines 116-120. *)
Definition footer (files_processed total_lines : nat) : list string :=
  [ nl +:+ rule80 +:+ nl;
    "End of combined file" +:+ nl;
    "Files processed: " +:+ dec files_processed +:+ nl;
    "Total lines: " +:+ dec total_lines +:+ nl;
    "=" +:+ rule80 +:+ nl ].

(** Lines 101-103: what is written after the content. *)
Definition newline_fix (content : string) : list string :=
  if negb (String.eqb content "") && negb (ends_with_newline content)
  then [nl] else [].

(** Lines 79-103: the body of the inner [try] up to the counters; the
    result is the line count of the file. *)
Definition file_body (env : cenv) (f : entry) : W nat :=
  let* content := match e_read f with inl e => raise e | inr c => ret c end in
  let lines := count_newlines content in
  let* _ := write env (separator env f lines) in
  let* _ := write env content in
  let* _ := write_all env (newline_fix content) in
  ret lines.

Record counters : Type := Counters {
  files_processed : nat;
  total_lines : nat;
  printed : list message
}.

(** Lines 78-113: one iteration of the [for] loop, with both handlers. *)
Definition process_file (env : cenv) (acc : counters) (f : entry)
  : list string -> counters * list string :=
  fun out =>
    match file_body env f out with
    | (Ok lines, out') =>
        (Counters (S (files_processed acc)) (total_lines acc + lines)
                  (printed acc ++ [MsgProcessed (e_name f) lines]), out')
    | (Raise UnicodeDecodeError, out') =>
        (Counters (files_processed acc) (total_lines acc)
                  (printed acc ++ [MsgSkipped (e_name f)]), out')
    | (Raise (OtherError e), out') =>
        (Counters (files_processed acc) (total_lines acc)
                  (printed acc ++ [MsgErrorReading (e_name f) e]), out')
    end.

Fixpoint process_files (env : cenv) (acc : counters) (files : list entry)
  : list string -> counters * list string :=
  fun out =>
    match files with
    | [] => (acc, out)
    | f :: files' =>
        let '(acc', out') := process_file env acc f out in
        process_files env acc' files' out'
    end.

(** Order of [PurePath]: component by component, a proper prefix first. *)
Fixpoint parts_compare (a b : list string) : comparison :=
  match a, b with
  | [], [] => Eq
  | [], _ :: _ => Lt
  | _ :: _, [] => Gt
  | x :: a', y :: b' =>
      match String.compare x y with
      | Eq => parts_compare a' b'
      | c => c
      end
  end.

Definition parts_leb (a b : list string) : bool :=
  match parts_compare a b with Gt => false | _ => true end.

Definition path_leb (f g : entry) : bool := parts_leb (e_parts f) (e_parts g).

Definition ctime_leb (f g : entry) : bool := (e_ctime f <=? e_ctime g)%Z.

(** Lines 39-54: the list of files to combine and the name of the order. *)
Definition select_files (globbed rglobbed : list entry)
           (sort_by_date recursive : bool) : list entry * string :=
  let files := if recursive then rglobbed else globbed in
  let files := List.filter (fun f => e_is_file f && negb (e_is_output f)) files in
  if sort_by_date then (sort_by ctime_leb files, "creation date")
  else (sort_by path_leb files, "name").

Record cresult : Type := CResult {
  cr_processed : nat;              (* first component of the returned tuple *)
  cr_lines : nat;                  (* second component *)
  cr_success : bool;               (* third component *)
  cr_output : option (list string);(* the output file: [None] if it was never
                                      opened, else the texts written to it *)
  cr_printed : list message
}.

(** The [with open(...)] block: header, files, footer, close.  An
    exception of the header, the footer or the close leaves the block; the
    counters reached so far are those of the last completed iteration. *)
Definition with_output (env : cenv) (files : list entry)
           (sort_method encoding : string) (acc : counters)
  : outcome unit * counters * list string :=
  match write_all env (header env (length files) sort_method encoding) [] with
  | (Raise e, out) => (Raise e, acc, out)
  | (Ok _, out) =>
      let '(acc', out') := process_files env acc files out in
      match write_all env (footer (files_processed acc') (total_lines acc')) out' with
      | (Raise e, out'') => (Raise e, acc', out'')
      | (Ok _, out'') =>
          match close_error env out'' with
          | Some e => (Raise (OtherError e), acc', out'')
          | None => (Ok tt, acc', out'')
          end
      end
  end.

Definition exn_text (e : exn) : string :=
  match e with
  | UnicodeDecodeError => "UnicodeDecodeError"
  | OtherError msg => msg
  end.

(** [combine_files(source_dir, output_file, file_pattern, sort_by_date,
    encoding, recursive)]. *)
Definition combine_files (env : cenv) (src : source)
           (source_dir output_file file_pattern : string)
           (sort_by_date : bool) (encoding : string) (recursive : bool)
  : cresult :=
  match src with
  | SrcMissing => CResult 0 0 false None [MsgNoDirectory source_dir]
  | SrcNotADirectory => CResult 0 0 false None [MsgNotADirectory source_dir]
  | SrcDir globbed rglobbed =>
      let '(files, sort_method) :=
        select_files globbed rglobbed sort_by_date recursive in
      match files with
      | [] => CResult 0 0 false None [MsgNoFiles file_pattern source_dir]
      | _ :: _ =>
          let acc := Counters 0 0 [MsgFound (length files) sort_method;
                                   MsgOutputFile output_file; MsgDashes] in
          match open_error env with
          | Some e =>
              CResult 0 0 false None (printed acc ++ [MsgErrorWriting e])
          | None =>
              match with_output env files sort_method encoding acc with
              | (Raise e, acc', out) =>
                  CResult (files_processed acc') (total_lines acc') false
                          (Some out)
                          (printed acc' ++ [MsgErrorWriting (exn_text e)])
              | (Ok _, acc', out) =>
                  CResult (files_processed acc') (total_lines acc') true
                          (Some out) (printed acc')
              end
          end
      end
  end.

(** [main()] of append_text.py, after argument parsing: the exit code and
    the run. *)
Definition combiner_main (env : cenv) (src : source)
           (source_dir output_file pattern : string)
           (sort_by_name : bool) (encoding : string) (recursive : bool)
  : nat * cresult :=
  let r := combine_files env src source_dir output_file pattern
                         (negb sort_by_name) encoding recursive in
  if cr_success r then
    (0, CResult (cr_processed r) (cr_lines r) (cr_success r) (cr_output r)
                (cr_printed r ++ [MsgDashes;
                                  MsgSuccess (cr_processed r) (cr_lines r);
                                  MsgSavedTo output_file]))
  else
    (1, CResult (cr_processed r) (cr_lines r) (cr_success r) (cr_output r)
                (cr_printed r ++ [MsgDashes; MsgFailed])).

(** ** Reference parsing of a file name

    [ext_tail old r] reads [r], the part of a name after a candidate base,
    as [.<old>], [.<old><digits>] or [.<old>.<digits>], the way the
    pattern does: the extension is compared through [lower], a line feed
    may follow the match.  It is the yardstick the matcher is checked
    against (lemma [tail_run]). *)

Definition at_end (s : string) : bool :=
  String.eqb s "" || String.eqb s (String LF "").

Fixpoint strip_ci (lit s : string) : option string :=
  match lit, s with
  | EmptyString, _ => Some s
  | String c lit', String x s' =>
      if Ascii.eqb (lower x) (lower c) then strip_ci lit' s' else None
  | String _ _, EmptyString => None
  end.

Fixpoint take_digits (s : string) : string :=
  match s with
  | String c s' => if is_digit c then String c (take_digits s') else ""
  | EmptyString => ""
  end.

Fixpoint drop_digits (s : string) : string :=
  match s with
  | String c s' => if is_digit c then drop_digits s' else s
  | EmptyString => ""
  end.

Definition number_part (t : string) : option string :=
  let body :=
    match t with
    | String c t' => if Ascii.eqb c "."%char then t' else t
    | EmptyString => t
    end in
  let d := take_digits body in
  if negb (String.eqb d "") && at_end (drop_digits body) then Some d else None.

Definition group_part (t : string) : option (option string) :=
  match number_part t with
  | Some d => Some (Some d)
  | None => if at_end t then Some None else None
  end.

Definition ext_tail (old r : string) : option (option string) :=
  match r with
  | String c r' =>
      if Ascii.eqb c "."%char then
        match strip_ci old r' with
        | Some t => group_part t
        | None => None
        end
      else None
  | EmptyString => None
  end.

(** The continuation that ends every match: [$] has been checked, the
    groups are the result. *)
Definition finish : cont := fun g _ _ => Some g.

Definition number_pattern : regex :=
  Opt (Cat (Opt (Lit "."%char)) (Grp 2 (Rep1 Digit))).

Definition tail_pattern (old_ext : string) : regex :=
  Cat (Lit "."%char) (Cat (literal old_ext) (Cat number_pattern Eol)).

Definition with_number (g : groups) (r : option (option string)) : option groups :=
  match r with
  | Some (Some d) => Some (set_group 2 d g)
  | Some None => Some g
  | None => None
  end.

(** What follows group 1: the base is recorded, the tail is read. *)
Definition after_base (old : string) : cont :=
  fun g pre rest => with_number (set_group 1 pre g) (ext_tail old rest).


(** ** The contract of the renamer, in the words of its specification *)

(** The two extension tokens are compared without regard to case. *)
Definition ci_eqb (a b : string) : bool :=
  String.eqb (str_map lower a) (str_map lower b).

Definition digits (d : string) : Prop := d <> "" /\ str_all is_digit d = true.

(** What may follow the extension: nothing, [<digits>] or [.<digits>]. *)
Inductive digit_group : string -> option string -> Prop :=
| dg_none : digit_group "" None
| dg_bare d : digits d -> digit_group d (Some d)
| dg_dotted d : digits d -> digit_group ("." +:+ d) (Some d).

(** [name] reads [<base>.<old>], [<base>.<old><digits>] or
    [<base>.<old>.<digits>], with a base that is not empty and holds no
    line feed. *)
Definition name_form (old name base : string) (num : option string) : Prop :=
  base <> "" /\ str_all not_newline base = true /\
  exists e t, name = base +:+ "." +:+ e +:+ t /\ ci_eqb e old = true /\ digit_group t num.

(** The base is captured greedily: no reading of the name has a longer one. *)
Definition greedy_base (old name base : string) : Prop :=
  forall base' num', name_form old name base' num' ->
                     String.length base' <= String.length base.

(** Decision procedure for [greedy_base]: no later split point leaves a
    well-formed tail. *)
Definition greedy_check (old name base : string) : bool :=
  forallb (fun i => match ext_tail old (str_drop i name) with
                    | None => true
                    | Some _ => false
                    end)
          (seq (S (String.length base)) (String.length name - String.length base)).




(** An operating system that never refuses a rename. *)
Definition no_failure : rename_oracle := fun _ _ _ => None.

(** The plan for one entry of the listing, read off the live directory
    [d]: the target the loop body settles on, if the entry is a regular
    file whose name matches. *)
Definition planned_target (d : gmap string node) (old_ext new_ext name : string)
  : option string :=
  if is_file d name then
    match match_name old_ext name with
    | Some m => resolve_target d (new_name new_ext m)
    | None => None
    end
  else None.

(** A regular file whose name matches the pattern. *)
Definition matches (d : gmap string node) (old_ext name : string) : bool :=
  is_file d name &&
  match match_name old_ext name with Some _ => true | None => false end.


(** The lines a dry run prints for a listing, all planned against the
    same directory [d]. *)
Definition dry_lines (d : gmap string node) (old_ext new_ext : string)
           (names : list string) : list string :=
  omap (fun name => rename_line true name <$> planned_target d old_ext new_ext name)
       names.

(** ** The contract of the combiner, in the words of its specification *)

(** The text of the output file: what was written, in order. *)
Definition file_text (chunks : list string) : string :=
  foldr String.append "" chunks.

(** Reading the file raises (a decode error or any other error). *)
Definition read_fails (f : entry) : bool :=
  match e_read f with inl _ => true | inr _ => false end.

Definition read_errors (files : list entry) : nat :=
  length (List.filter read_fails files).

(** The output file can be opened, written and closed without error. *)
Definition reliable (env : cenv) : Prop :=
  open_error env = None /\
  (forall out s, write_error env out s = None) /\
  (forall out, close_error env out = None).

(** What a file contributes to the output when nothing fails: separator
    block, content, newline if needed. *)
Definition block_of (env : cenv) (f : entry) : list string :=
  match e_read f with
  | inr content =>
      separator env f (count_newlines content) :: content :: newline_fix content
  | inl _ => []
  end.

(** The cases of lines 31-58: no directory to read, or nothing to combine. *)
Definition no_input (src : source) (sort_by_date recursive : bool) : Prop :=
  src = SrcMissing \/ src = SrcNotADirectory \/
  exists globbed rglobbed,
    src = SrcDir globbed rglobbed /\
    fst (select_files globbed rglobbed sort_by_date recursive) = [].

(** *** Sample environments and files *)

Definition sample_env : cenv :=
  CEnv "2024-05-01 10:00:00" "/data/logs" (fun _ => "2024-04-30 09:00:00")
       None (fun _ _ => None) (fun _ => None).

(** The output path cannot be opened for writing. *)
Definition env_cannot_open : cenv :=
  CEnv "2024-05-01 10:00:00" "/data/logs" (fun _ => "2024-04-30 09:00:00")
       (Some "Permission denied") (fun _ _ => None) (fun _ => None).

(** Every write is refused, as on a full disk. *)
Definition env_disk_full : cenv :=
  CEnv "2024-05-01 10:00:00" "/data/logs" (fun _ => "2024-04-30 09:00:00")
       None (fun _ _ => Some "No space left on device") (fun _ => None).

(** The output codec cannot encode the text [caf?] (standing for a text with
    a character outside the output encoding); everything else is written. *)
Definition env_cannot_encode : cenv :=
  CEnv "2024-05-01 10:00:00" "/data/logs" (fun _ => "2024-04-30 09:00:00")
       None
       (fun _ s => if String.eqb s "caf?" then Some "codec can't encode character"
                   else None)
       (fun _ => None).

Definition sample_file : entry :=
  Entry ["a.txt"] true false 100 6 (inr ("hello" +:+ nl)).

(** The output file of an earlier run, lying in the source directory. *)
Definition previous_output : entry :=
  Entry ["all.txt"] true true 300 40 (inr ("old" +:+ nl)).

Definition unencodable_file : entry :=
  Entry ["a.txt"] true false 100 4 (inr "caf?").

Definition empty_file : entry :=
  Entry ["empty.txt"] true false 100 0 (inr "").



(** An operating system that refuses every rename. *)
Definition always_refuses : rename_oracle := fun _ _ _ => Some "Permission denied".



(** The line feeds of a file, as far as it can be read. *)
Definition lines_of (f : entry) : nat :=
  match e_read f with
  | inr content => count_newlines content
  | inl _ => 0
  end.

(** The "Processed" lines among the lines printed, and the line counts
    they show. *)
Definition is_processed_msg (m : message) : bool :=
  match m with MsgProcessed _ _ => true | _ => false end.

Definition processed_lines (m : message) : nat :=
  match m with MsgProcessed _ n => n | _ => 0 end.

(** Two files none of which can be read. *)
Definition unreadable_a : entry :=
  Entry ["a.bin"] true false 100 9 (inl UnicodeDecodeError).

Definition unreadable_b : entry :=
  Entry ["b.bin"] true false 200 9 (inl (OtherError "Permission denied")).
(* ===================================================================== *)
(** * Part II: lemmas and theorems                                        *)
(* ===================================================================== *)

(** ** Strings *)

Lemma app_String c s t : String c s +:+ t = String c (s +:+ t).
Proof. reflexivity. Qed.

Lemma app_empty_l t : "" +:+ t = t.
Proof. reflexivity. Qed.

Lemma app_empty_r s : s +:+ "" = s.
Proof. induction s as [|c s IH]; [done|]. by rewrite app_String, IH. Qed.

Lemma app_assoc_str a b c : (a +:+ b) +:+ c = a +:+ (b +:+ c).
Proof. induction a as [|x a IH]; [done|]. by rewrite !app_String, IH. Qed.

Lemma app_snoc pre c s : (pre +:+ String c "") +:+ s = pre +:+ String c s.
Proof. by rewrite app_assoc_str. Qed.

Lemma length_app_str a b :
  String.length (a +:+ b) = String.length a + String.length b.
Proof. induction a as [|x a IH]; [done|]. rewrite app_String. simpl. by rewrite IH. Qed.

Lemma app_eq_empty a b : a +:+ b = "" -> a = "" /\ b = "".
Proof. destruct a; [done|]. rewrite app_String. discriminate. Qed.

Lemma str_drop_app a b : str_drop (String.length a) (a +:+ b) = b.
Proof. induction a as [|x a IH]; [by destruct b|]. by rewrite app_String. Qed.



(** Normalise the length of a concatenation in hypothesis [H]. *)
Ltac str_len H :=
  repeat first [ rewrite length_app_str in H | progress simpl in H ].

(** Two splittings of one string at the same position agree. *)
Lemma app_split_eq a b a' b' :
  a +:+ b = a' +:+ b' -> String.length a = String.length a' -> a = a' /\ b = b'.
Proof.
  revert a'. induction a as [|x a IH]; intros [|x' a'] H Hl; try done.
  rewrite !app_String in H. injection H as -> H. simpl in Hl.
  destruct (IH a' H) as [-> ->]; [lia|done].
Qed.

(** ** The matcher *)

(** [star] returns the continuation's answer at the longest admissible
    split at which the continuation succeeds. *)
Lemma star_none p g pre rest k :
  star p g pre rest k = None ->
  forall a b, rest = a +:+ b -> str_all p a = true -> k g (pre +:+ a) b = None.
Proof.
  revert pre. induction rest as [|c rest IH]; intros pre H a b Hab Ha.
  - symmetry in Hab. apply app_eq_empty in Hab as [-> ->].
    by rewrite ?app_empty_l, ?app_empty_r.
  - simpl in H. destruct a as [|x a].
    + rewrite app_empty_l in Hab. subst b. rewrite ?app_empty_l, ?app_empty_r.
      destruct (p c); [|done].
      by destruct (star p g (pre +:+ String c "") rest k).
    + rewrite app_String in Hab. injection Hab as <- Hab.
      simpl in Ha. apply andb_prop in Ha as [Hc Ha]. rewrite Hc in H.
      destruct (star p g (pre +:+ String c "") rest k) eqn:E; [done|].
      rewrite <- app_snoc. by apply (IH _ E).
Qed.

Lemma star_some p g pre rest k res :
  star p g pre rest k = Some res ->
  exists a b,
    rest = a +:+ b /\ str_all p a = true /\ k g (pre +:+ a) b = Some res /\
    forall a' b', rest = a' +:+ b' -> str_all p a' = true ->
                  String.length a < String.length a' ->
                  k g (pre +:+ a') b' = None.
Proof.
  revert pre. induction rest as [|c rest IH]; intros pre H.
  - simpl in H. exists "", "". rewrite ?app_empty_l, ?app_empty_r. split_and!; try done.
    intros a' b' Hab _ Hl. symmetry in Hab.
    apply app_eq_empty in Hab as [-> _]. simpl in Hl. lia.
  - simpl in H. destruct (p c) eqn:Hc.
    + destruct (star p g (pre +:+ String c "") rest k) eqn:E.
      * injection H as ->.
        destruct (IH _ E) as (a & b & -> & Ha & Hk & Hmax).
        exists (String c a), b. rewrite app_String. split_and!; [done|..].
        -- simpl. by rewrite Hc.
        -- by rewrite <- app_snoc.
        -- intros [|x a'] b' Hab Ha' Hl; [simpl in Hl; lia|].
           rewrite app_String in Hab. injection Hab as <- Hab.
           simpl in Ha'. apply andb_prop in Ha' as [_ Ha'].
           rewrite <- app_snoc. apply Hmax; [done|done|simpl in Hl; lia].
      * exists "", (String c rest). rewrite ?app_empty_l, ?app_empty_r. split_and!; try done.
        intros [|x a'] b' Hab Ha' Hl; [simpl in Hl; lia|].
        rewrite app_String in Hab. injection Hab as <- Hab.
        simpl in Ha'. apply andb_prop in Ha' as [_ Ha'].
        rewrite <- app_snoc. by apply (star_none _ _ _ _ _ E).
    + exists "", (String c rest). rewrite ?app_empty_l, ?app_empty_r. split_and!; try done.
      intros [|x a'] b' Hab Ha' Hl; [simpl in Hl; lia|].
      rewrite app_String in Hab. injection Hab as <- Hab.
      simpl in Ha'. by rewrite Hc in Ha'.
Qed.

Lemma star_ext p g pre rest k1 k2 :
  (forall g' pre' rest', k1 g' pre' rest' = k2 g' pre' rest') ->
  star p g pre rest k1 = star p g pre rest k2.
Proof.
  intros Hk. revert pre. induction rest as [|c rest IH]; intros pre; simpl.
  - apply Hk.
  - rewrite IH, Hk. done.
Qed.

(** ** Characters *)

Ltac ascii_cases c := destruct c as [[] [] [] [] [] [] [] []]; vm_compute; try done.

Lemma lower_dot x :
  Ascii.eqb (lower x) (lower "."%char) = Ascii.eqb x "."%char.
Proof. ascii_cases x. Qed.

Lemma digit_not_dot c : is_digit c = true -> Ascii.eqb c "."%char = false.
Proof. ascii_cases c. Qed.

Lemma digit_not_LF c : is_digit c = true -> Ascii.eqb c LF = false.
Proof. ascii_cases c. Qed.

Lemma dot_not_LF c : Ascii.eqb c "."%char = true -> Ascii.eqb c LF = false.
Proof. ascii_cases c. Qed.



Lemma at_end_String c s :
  at_end (String c s) = Ascii.eqb c LF && String.eqb s "".
Proof.
  unfold at_end. simpl. destruct (Ascii.eqb c LF); [|done].
  by destruct s.
Qed.

(** ** The part of the pattern after the base *)

Lemma run_Cat r1 r2 g pre rest k :
  run (Cat r1 r2) g pre rest k
  = run r1 g pre rest (fun g' pre' rest' => run r2 g' pre' rest' k).
Proof. reflexivity. Qed.

Lemma run_Opt r g pre rest k :
  run (Opt r) g pre rest k
  = match run r g pre rest k with Some res => Some res | None => k g pre rest end.
Proof. reflexivity. Qed.

Lemma run_Lit c g pre rest k :
  run (Lit c) g pre rest k
  = step1 (fun x => Ascii.eqb (lower x) (lower c)) g pre rest k.
Proof. reflexivity. Qed.

Lemma run_Eol g pre rest :
  run Eol g pre rest finish = if at_end rest then Some g else None.
Proof. reflexivity. Qed.

Lemma run_Grp_Rep1 n r p g pre rest k :
  char_test r = Some p ->
  run (Grp n (Rep1 r)) g pre rest k
  = step1 p g pre rest
      (fun g' pre' rest' =>
         star p g' pre' rest'
              (fun g2 pre2 rest2 =>
                 k (set_group n (str_drop (String.length pre) pre2) g2) pre2 rest2)).
Proof. intros H. cbn [run]. by rewrite H. Qed.

Lemma digits_star g pre0 pre rest :
  star is_digit g pre rest
       (fun g' pre' rest' =>
          run Eol (set_group 2 (str_drop (String.length pre0) pre') g') pre' rest' finish)
  = if at_end (drop_digits rest)
    then Some (set_group 2 (str_drop (String.length pre0) (pre +:+ take_digits rest)) g)
    else None.
Proof.
  revert pre. induction rest as [|c rest IH]; intros pre.
  - simpl. by rewrite app_empty_r.
  - cbn [star take_digits drop_digits]. destruct (is_digit c) eqn:Hc.
    + rewrite IH. destruct (at_end (drop_digits rest)).
      * by rewrite app_snoc.
      * by rewrite run_Eol, at_end_String, (digit_not_LF _ Hc).
    + rewrite run_Eol, app_empty_r. done.
Qed.

Lemma digits_run g pre body :
  run (Grp 2 (Rep1 Digit)) g pre body (fun g' pre' rest' => run Eol g' pre' rest' finish)
  = if negb (String.eqb (take_digits body) "") && at_end (drop_digits body)
    then Some (set_group 2 (take_digits body) g) else None.
Proof.
  rewrite (run_Grp_Rep1 2 Digit is_digit) by done.
  unfold step1. destruct body as [|c body]; [done|].
  cbn [take_digits drop_digits]. destruct (is_digit c) eqn:Hc; [|done].
  rewrite (digits_star g pre). simpl.
  destruct (at_end (drop_digits body)); [|done].
  by rewrite app_snoc, str_drop_app.
Qed.

Lemma number_run g pre t :
  run (Cat number_pattern Eol) g pre t finish = with_number g (group_part t).
Proof.
  unfold number_pattern. rewrite run_Cat, run_Opt, run_Cat, run_Opt, run_Lit.
  unfold step1, group_part, number_part.
  destruct t as [|c t].
  - rewrite digits_run, run_Eol. done.
  - rewrite lower_dot. destruct (Ascii.eqb c "."%char) eqn:Hc.
    + rewrite digits_run.
      destruct (negb (String.eqb (take_digits t) "") && at_end (drop_digits t)); [done|].
      rewrite digits_run, run_Eol. cbn [take_digits drop_digits].
      assert (is_digit c = false) as ->.
      { destruct (is_digit c) eqn:E; [|done]. by rewrite (digit_not_dot _ E) in Hc. }
      simpl. by rewrite at_end_String, (dot_not_LF _ Hc).
    + rewrite digits_run, run_Eol.
      destruct (negb (String.eqb (take_digits (String c t)) "")
                && at_end (drop_digits (String c t))); [done|].
      by destruct (at_end (String c t)).
Qed.

Lemma literal_run lit g pre rest k :
  run (literal lit) g pre rest k
  = match strip_ci lit rest with
    | Some t => k g (pre +:+ str_take (String.length lit) rest) t
    | None => None
    end.
Proof.
  revert pre rest. induction lit as [|c lit IH]; intros pre rest.
  - simpl. destruct rest; by rewrite app_empty_r.
  - cbn [literal]. rewrite run_Cat, run_Lit. unfold step1.
    destruct rest as [|x rest]; [done|].
    cbn [strip_ci]. destruct (Ascii.eqb (lower x) (lower c)); [|done].
    rewrite IH. destruct (strip_ci lit rest); [|done].
    simpl. by rewrite app_snoc.
Qed.

Lemma tail_run old g pre r :
  run (tail_pattern old) g pre r finish = with_number g (ext_tail old r).
Proof.
  unfold tail_pattern. rewrite run_Cat, run_Lit. unfold step1, ext_tail.
  destruct r as [|c r]; [done|].
  rewrite lower_dot. destruct (Ascii.eqb c "."%char); [|done].
  rewrite run_Cat, literal_run. destruct (strip_ci old r) as [t|]; [|done].
  apply number_run.
Qed.

(** ** The whole pattern *)

Lemma re_match_pattern old name :
  re_match (pattern old) name
  = step1 not_newline no_groups "" name
      (fun g' pre' rest' => star not_newline g' pre' rest' (after_base old)).
Proof.
  unfold re_match, pattern. rewrite run_Cat.
  change (run Bol no_groups "" name ?k) with (k no_groups "" name).
  cbv beta. rewrite run_Cat, (run_Grp_Rep1 1 Any not_newline) by done.
  unfold step1. destruct name as [|c name]; [done|].
  destruct (not_newline c); [|done].
  apply star_ext. intros g' pre' rest'. unfold after_base.
  rewrite <- (tail_run old _ pre' rest'). done.
Qed.

Lemma after_base_some old pre rest res :
  after_base old no_groups pre rest = Some res ->
  exists num, ext_tail old rest = Some num /\ res 1 = Some pre /\ res 2 = num.
Proof.
  unfold after_base. destruct (ext_tail old rest) as [[d|]|]; simpl; intros H;
    simplify_eq; eauto.
Qed.

Lemma after_base_none old g pre rest :
  after_base old g pre rest = None -> ext_tail old rest = None.
Proof. unfold after_base. by destruct (ext_tail old rest) as [[d|]|]. Qed.

(** A match captures a non-empty base without line feed, followed by a
    well-formed tail, and no longer base has these properties. *)
Lemma match_name_some old name b num :
  match_name old name = Some (b, num) ->
  exists r,
    name = b +:+ r /\ b <> "" /\ str_all not_newline b = true /\
    ext_tail old r = Some num /\
    forall b' r', name = b' +:+ r' -> str_all not_newline b' = true ->
                  String.length b < String.length b' -> ext_tail old r' = None.
Proof.
  unfold match_name. rewrite re_match_pattern. unfold step1.
  destruct name as [|c rest0]; [done|].
  destruct (not_newline c) eqn:Hc; [|done].
  destruct (star _ _ _ _ _) as [res|] eqn:E; [|done].
  apply star_some in E as (a & r & -> & Ha & Hk & Hmax).
  rewrite app_empty_l, app_String, app_empty_l in Hk.
  apply after_base_some in Hk as (num' & Ht & H1 & H2).
  rewrite H1, H2. intros [= <- <-]. exists r. split_and!; try done.
  - simpl. by rewrite Hc.
  - intros [|x b'] r' Hn Hb' Hl; [simpl in Hl; lia|].
    rewrite !app_String in Hn. injection Hn as <- Hn.
    simpl in Hb'. apply andb_prop in Hb' as [_ Hb'].
    apply (after_base_none old no_groups (String c b')).
    specialize (Hmax b' r' Hn Hb').
    rewrite app_empty_l, app_String, app_empty_l in Hmax.
    apply Hmax. simpl in Hl. lia.
Qed.

Lemma match_name_none old name :
  match_name old name = None ->
  forall b r, name = b +:+ r -> b <> "" -> str_all not_newline b = true ->
              ext_tail old r = None.
Proof.
  unfold match_name. rewrite re_match_pattern. unfold step1.
  intros H [|c b] r -> Hne Hb; [done|]. clear Hne.
  rewrite app_String in H. simpl in Hb. apply andb_prop in Hb as [Hc Hb].
  rewrite Hc in H.
  destruct (star _ _ _ _ _) as [res|] eqn:E.
  - apply star_some in E as (a & r2 & _ & _ & Hk & _).
    apply after_base_some in Hk as (num' & _ & H1 & _).
    by rewrite H1 in H.
  - apply (after_base_none old no_groups (String c b)).
    pose proof (star_none _ _ _ _ _ E b r eq_refl Hb) as Hk.
    by rewrite app_empty_l, app_String, app_empty_l in Hk.
Qed.

(** Completeness: a well-formed split with the longest base is the match. *)
Lemma match_name_complete old name b r num :
  name = b +:+ r -> b <> "" -> str_all not_newline b = true ->
  ext_tail old r = Some num ->
  (forall b' r', name = b' +:+ r' -> b' <> "" -> str_all not_newline b' = true ->
                 String.length b < String.length b' -> ext_tail old r' = None) ->
  match_name old name = Some (b, num).
Proof.
  intros Hn Hb Hnl Ht Hmax.
  destruct (match_name old name) as [[b2 num2]|] eqn:E.
  - apply match_name_some in E as (r2 & Hn2 & Hb2 & Hnl2 & Ht2 & Hmax2).
    destruct (lt_eq_lt_dec (String.length b) (String.length b2)) as [[Hlt|Heq]|Hgt].
    + rewrite (Hmax b2 r2 Hn2 Hb2 Hnl2 Hlt) in Ht2. done.
    + rewrite Hn in Hn2. apply app_split_eq in Hn2 as [-> ->]; [|done].
      congruence.
    + rewrite (Hmax2 b r Hn Hnl Hgt) in Ht. done.
  - rewrite (match_name_none _ _ E b r Hn Hb Hnl) in Ht. done.
Qed.

(** ** The forms of the specification against the reference parsing *)

Lemma str_map_length f s : String.length (str_map f s) = String.length s.
Proof. induction s as [|c s IH]; [done|]. simpl. by rewrite IH. Qed.

Lemma ci_eqb_length e old : ci_eqb e old = true -> String.length e = String.length old.
Proof.
  unfold ci_eqb. intros H%String.eqb_eq.
  by rewrite <- (str_map_length lower e), H, str_map_length.
Qed.

Lemma strip_ci_app e old t : ci_eqb e old = true -> strip_ci old (e +:+ t) = Some t.
Proof.
  unfold ci_eqb. intros H%String.eqb_eq. revert e H.
  induction old as [|c old IH]; intros [|x e] H; simplify_eq/=; [done|].
  rewrite H, Ascii.eqb_refl. by apply IH.
Qed.

Lemma strip_ci_inv old s t :
  strip_ci old s = Some t -> exists e, s = e +:+ t /\ ci_eqb e old = true.
Proof.
  revert s. induction old as [|c old IH]; intros s H.
  - simpl in H. exists "". by simplify_eq.
  - destruct s as [|x s]; [done|]. cbn [strip_ci] in H.
    destruct (Ascii.eqb (lower x) (lower c)) eqn:E; [|done].
    apply Ascii.eqb_eq in E. destruct (IH _ H) as (e & -> & He).
    exists (String x e). split; [done|].
    unfold ci_eqb in *. apply String.eqb_eq in He. apply String.eqb_eq.
    simpl. by rewrite E, He.
Qed.

Lemma take_digits_all d : str_all is_digit d = true -> take_digits d = d.
Proof.
  induction d as [|c d IH]; [done|]. simpl. intros [-> H]%andb_prop.
  by rewrite IH.
Qed.

Lemma drop_digits_all d : str_all is_digit d = true -> drop_digits d = "".
Proof.
  induction d as [|c d IH]; [done|]. simpl. intros [-> H]%andb_prop. auto.
Qed.

Lemma take_drop_digits s : take_digits s +:+ drop_digits s = s.
Proof.
  induction s as [|c s IH]; [done|]. simpl.
  destruct (is_digit c); [|done]. by rewrite app_String, IH.
Qed.

Lemma take_digits_digits s : str_all is_digit (take_digits s) = true.
Proof.
  induction s as [|c s IH]; [done|]. simpl.
  destruct (is_digit c) eqn:E; [|done]. simpl. by rewrite E.
Qed.

Lemma number_part_digits d : digits d -> number_part d = Some d.
Proof.
  intros [Hne Hd]. unfold number_part. destruct d as [|c d]; [done|].
  simpl in Hd. apply andb_prop in Hd as [Hc Hd].
  rewrite (digit_not_dot _ Hc).
  rewrite take_digits_all, drop_digits_all by (simpl; by rewrite Hc).
  done.
Qed.

Lemma group_part_form t num : digit_group t num -> group_part t = Some num.
Proof.
  unfold group_part. destruct 1 as [|d Hd|d Hd].
  - done.
  - by rewrite number_part_digits.
  - destruct Hd as [Hne Hd]. unfold number_part.
    change ("." +:+ d) with (String "."%char d). cbn [Ascii.eqb Bool.eqb].
    rewrite take_digits_all, drop_digits_all by done.
    destruct d; done.
Qed.

(** A name of one of the three forms has a well-formed tail. *)
Lemma ext_tail_form old e t num :
  ci_eqb e old = true -> digit_group t num ->
  ext_tail old ("." +:+ e +:+ t) = Some num.
Proof.
  intros He Ht. change ("." +:+ e +:+ t) with (String "."%char (e +:+ t)).
  cbn [ext_tail Ascii.eqb Bool.eqb]. rewrite strip_ci_app by done.
  by apply group_part_form.
Qed.

Lemma at_end_inv s : at_end s = true -> s = "" \/ s = nl.
Proof.
  unfold at_end. intros [H|H]%orb_prop; apply String.eqb_eq in H; auto.
Qed.

(** Conversely, a well-formed tail is one of the three forms, possibly
    followed by a single line feed. *)
Lemma group_part_inv t num :
  group_part t = Some num ->
  exists t0, digit_group t0 num /\ (t = t0 \/ t = t0 +:+ nl).
Proof.
  unfold group_part. destruct (number_part t) as [d|] eqn:E.
  - intros [= <-]. unfold number_part in E.
    destruct (negb _ && _) eqn:C in E; [|done]. injection E as E.
    apply andb_prop in C as [Hne Hend]. apply negb_true_iff, String.eqb_neq in Hne.
    apply at_end_inv in Hend.
    set (body := match t with
                 | String c t' => if Ascii.eqb c "."%char then t' else t
                 | EmptyString => t
                 end) in *.
    assert (Hd : digits d).
    { rewrite <- E. split; [done|apply take_digits_digits]. }
    assert (Hbody : body = d \/ body = d +:+ nl).
    { rewrite <- (take_drop_digits body), E.
      destruct Hend as [-> | ->]; [left; apply app_empty_r|by right]. }
    destruct t as [|c t]; [by destruct Hne|].
    destruct (Ascii.eqb c "."%char) eqn:Hc.
    + apply Ascii.eqb_eq in Hc as ->. exists ("." +:+ d). split; [by constructor|].
      subst body. destruct Hbody as [-> | ->]; [by left|by right].
    + exists d. split; [by constructor|]. subst body. done.
  - destruct (at_end t) eqn:Hend; [|done]. intros [= <-].
    apply at_end_inv in Hend. exists "". split; [constructor|]. naive_solver.
Qed.

Lemma ext_tail_inv old r num :
  ext_tail old r = Some num ->
  exists e t0, ci_eqb e old = true /\ digit_group t0 num /\
               (r = "." +:+ e +:+ t0 \/ r = "." +:+ e +:+ t0 +:+ nl).
Proof.
  unfold ext_tail. destruct r as [|c r]; [done|].
  destruct (Ascii.eqb c "."%char) eqn:Hc; [|done]. apply Ascii.eqb_eq in Hc as ->.
  destruct (strip_ci old r) as [t|] eqn:E; [|done].
  apply strip_ci_inv in E as (e & -> & He). intros Ht.
  apply group_part_inv in Ht as (t0 & Hg & Ht).
  exists e, t0. split_and!; [done..|]. destruct Ht as [-> | ->]; [by left|by right].
Qed.

Lemma ends_with_newline_snoc a : ends_with_newline (a +:+ nl) = true.
Proof.
  induction a as [|c a IH]; [done|]. rewrite app_String.
  cbn [ends_with_newline]. destruct (a +:+ nl) eqn:E; [|done].
  by apply app_eq_empty in E as [_ ?].
Qed.

Lemma ends_with_newline_app a b :
  b <> "" -> ends_with_newline (a +:+ b) = ends_with_newline b.
Proof.
  intros Hb. induction a as [|c a IH]; [done|]. rewrite app_String.
  cbn [ends_with_newline]. destruct (a +:+ b) eqn:E; [|done].
  by apply app_eq_empty in E as [_ ?].
Qed.

Lemma digits_no_newline d : digits d -> ends_with_newline d = false.
Proof.
  intros [Hne Hd]. induction d as [|c d IH]; [done|].
  simpl in Hd. apply andb_prop in Hd as [Hc Hd].
  destruct d as [|c' d]; [simpl; by apply digit_not_LF|].
  by apply IH.
Qed.

Lemma digit_group_no_newline t num :
  digit_group t num -> t <> "" -> ends_with_newline t = false.
Proof.
  destruct 1 as [|d Hd|d Hd]; intros Hne; [done|by apply digits_no_newline|].
  rewrite ends_with_newline_app; [by apply digits_no_newline|by destruct Hd].
Qed.

(** The greedy base of the specification is the longest base the pattern
    can capture. *)
Lemma greedy_longest old name base num :
  name_form old name base num -> greedy_base old name base ->
  forall b' r', name = b' +:+ r' -> b' <> "" -> str_all not_newline b' = true ->
                String.length base < String.length b' -> ext_tail old r' = None.
Proof.
  intros (Hb & Hnl & e & t & Hn & He & Ht) Hg b' r' Hn' Hb' Hnl' Hlt.
  destruct (ext_tail old r') as [num'|] eqn:E; [|done]. exfalso.
  apply ext_tail_inv in E as (e' & t0 & He' & Ht0 & [-> | ->]).
  - assert (Hf : name_form old name b' num') by (split_and!; eauto).
    apply Hg in Hf. lia.
  - assert (Hlen : String.length t = String.length b' - String.length base
                                     + String.length t0 + 1).
    { apply (f_equal String.length) in Hn, Hn'.
      apply ci_eqb_length in He, He'. str_len Hn. str_len Hn'. lia. }
    assert (Hne : t <> "") by (intros ->; simpl in Hlen; lia).
    assert (H1 : ends_with_newline name = false).
    { rewrite Hn, <- !app_assoc_str, ends_with_newline_app by done.
      by eapply digit_group_no_newline. }
    rewrite Hn', <- !app_assoc_str, ends_with_newline_snoc in H1. done.
Qed.


Lemma greedy_check_sound old name base :
  greedy_check old name base = true -> greedy_base old name base.
Proof.
  unfold greedy_check. intros H base' num' (_ & _ & e & t & Hn & He & Ht).
  destruct (le_lt_dec (String.length base') (String.length base)) as [|Hlt]; [done|].
  exfalso. rewrite forallb_forall in H.
  specialize (H (String.length base')).
  rewrite Hn, str_drop_app, (ext_tail_form _ _ _ num') in H by done.
  assert (false = true); [|done].
  apply H, in_seq. rewrite length_app_str. lia.
Qed.

(** ** C1: the new name *)




(** ** C2: collisions *)

Lemma app_inv_tail_str a b c : a +:+ c = b +:+ c -> a = b.
Proof.
  intros H. apply (app_split_eq a c b c H).
  apply (f_equal String.length) in H. str_len H. lia.
Qed.

Lemma dec_inj i j : dec i = dec j -> i = j.
Proof.
  unfold dec. intros H. apply Unsigned.to_uint_inj.
  apply (f_equal NilEmpty.uint_of_string) in H.
  rewrite !NilEmpty.usu in H. by injection H.
Qed.

Lemma candidate_inj stm sfx i j :
  candidate stm sfx i = candidate stm sfx j -> i = j.
Proof.
  unfold candidate. intros H.
  apply (inj (String.app stm)), (inj (String.app "_")) in H.
  by apply app_inv_tail_str, dec_inj in H.
Qed.

Lemma path_exists_dom (d : gmap string node) name :
  path_exists d name = true <-> name ∈ dom d.
Proof.
  unfold path_exists. rewrite elem_of_dom.
  destruct (d !! name); split; intros H; try done; by destruct H.
Qed.

Lemma free_candidate_some fuel d stm sfx i c :
  free_candidate fuel d stm sfx i = Some c ->
  exists n, i <= n /\ c = candidate stm sfx n /\ path_exists d c = false /\
            forall j, i <= j < n -> path_exists d (candidate stm sfx j) = true.
Proof.
  revert i. induction fuel as [|fuel IH]; intros i H; [done|].
  simpl in H. destruct (path_exists d (candidate stm sfx i)) eqn:E.
  - destruct (IH _ H) as (n & Hn & -> & Hfree & Hbusy).
    exists n. split_and!; [lia|done|done|].
    intros j Hj. destruct (decide (j = i)) as [->|]; [done|]. apply Hbusy. lia.
  - injection H as <-. exists i. split_and!; [lia|done|done|]. intros j Hj. lia.
Qed.

Lemma free_candidate_none fuel d stm sfx i :
  free_candidate fuel d stm sfx i = None ->
  forall j, i <= j < i + fuel -> path_exists d (candidate stm sfx j) = true.
Proof.
  revert i. induction fuel as [|fuel IH]; intros i H j Hj; [lia|].
  simpl in H. destruct (path_exists d (candidate stm sfx i)) eqn:E; [|done].
  destruct (decide (j = i)) as [->|]; [done|]. apply (IH _ H). lia.
Qed.

(** A directory cannot hold more distinct candidates than it has entries. *)
Lemma candidates_exhaust (d : gmap string node) stm sfx i :
  ~ forall j, i <= j < i + S (size d) -> path_exists d (candidate stm sfx j) = true.
Proof.
  intros H.
  set (l := candidate stm sfx <$> seq i (S (size d))).
  assert (Hnd : NoDup l).
  { apply NoDup_fmap_2; [|apply NoDup_seq].
    intros x y. apply candidate_inj. }
  assert (Hsub : (list_to_set l : gset string) ⊆ dom d).
  { intros x [j [-> Hj]]%elem_of_list_to_set%list_elem_of_fmap.
    apply path_exists_dom, H. apply elem_of_seq in Hj. lia. }
  apply subseteq_size in Hsub.
  rewrite size_list_to_set, size_dom in Hsub by done.
  subst l. rewrite length_fmap, length_seq in Hsub. lia.
Qed.

(** The [while True] loop always ends: the fuel given is enough. *)
Lemma resolve_target_total d target :
  exists c, resolve_target d target = Some c /\ path_exists d c = false.
Proof.
  unfold resolve_target. destruct (path_exists d target) eqn:E; [|eauto].
  destruct (free_candidate _ _ _ _ _) as [c|] eqn:F.
  - apply free_candidate_some in F as (n & _ & -> & Hfree & _). eauto.
  - destruct (candidates_exhaust d (stem target) (suffix target) 1).
    apply (free_candidate_none _ _ _ _ _ F).
Qed.




(** ** Unmatched files are never touched *)




(** ** C10: names with nothing before the extension *)











(** ** C3: dry run *)

Lemma planned_target_matches d old new name :
  matches d old name = true <-> is_Some (planned_target d old new name).
Proof.
  unfold matches, planned_target. destruct (is_file d name); simpl.
  - destruct (match_name old name) as [m|]; [|split; [done|by intros []]].
    destruct (resolve_target_total d (new_name new m)) as (c & -> & _).
    split; eauto.
  - split; [done|by intros []].
Qed.

Lemma rename_one_dry oracle old new st name :
  rename_one oracle old new true st name
  = Some (match planned_target (rs_dir st) old new name with
          | Some c => RState (rs_dir st) (S (rs_count st))
                             (rs_out st ++ [rename_line true name c])
          | None => st
          end).
Proof.
  unfold rename_one, planned_target.
  destruct (is_file (rs_dir st) name); [|done]. simpl.
  destruct (match_name old name) as [m|]; [|done].
  by destruct (resolve_target_total (rs_dir st) (new_name new m)) as (c & -> & _).
Qed.

Lemma rename_loop_dry oracle old new names d n out :
  rename_loop oracle old new true (RState d n out) names
  = Some (RState d (n + length (List.filter (matches d old) names))
                 (out ++ dry_lines d old new names)).
Proof.
  revert n out. induction names as [|x names IH]; intros n out.
  - simpl. by rewrite Nat.add_0_r, app_nil_r.
  - cbn [rename_loop]. rewrite rename_one_dry. cbn [rs_dir rs_count rs_out].
    unfold dry_lines. cbn [omap list_omap List.filter].
    pose proof (planned_target_matches d old new x) as Hm.
    destruct (planned_target d old new x) as [c|] eqn:E.
    + assert (matches d old x = true) as -> by (apply Hm; eauto).
      rewrite IH. simpl. rewrite <- app_assoc. do 2 f_equal. lia.
    + assert (matches d old x = false) as ->.
      { destruct (matches d old x); [|done]. by destruct Hm as [[] _]. }
      by rewrite IH.
Qed.

Lemma dry_lines_length d old new names :
  length (dry_lines d old new names) = length (List.filter (matches d old) names).
Proof.
  unfold dry_lines. induction names as [|x names IH]; [done|].
  cbn [omap list_omap List.filter].
  pose proof (planned_target_matches d old new x) as Hm.
  destruct (planned_target d old new x) as [c|] eqn:E.
  - assert (matches d old x = true) as -> by (apply Hm; eauto). simpl. by rewrite IH.
  - assert (matches d old x = false) as ->; [|done].
    destruct (matches d old x); [|done]. by destruct Hm as [[] _].
Qed.

(** C3.  A dry run always returns; it leaves the folder exactly as it was,
    whatever the number of matching files; its count is the number of
    regular files of the listing whose name matches; it prints one line per
    such file, planned by the same matching and collision resolution as a
    real run: on one and the same directory both modes settle on the same
    target. *)
Theorem dry_run_changes_nothing oracle loc folder old_ext new_ext :
  exists r,
    rename_files oracle loc folder old_ext new_ext true = Some r /\
    rr_loc r = loc /\
    (forall d, loc = Folder d ->
       rr_count r
       = length (List.filter (matches d (lstrip_dot old_ext)) (iterdir_sorted d)) /\
       rr_out r
       = dry_lines d (lstrip_dot old_ext) (lstrip_dot new_ext) (iterdir_sorted d) /\
       length (rr_out r) = rr_count r) /\
    (forall d name c n out,
       planned_target d (lstrip_dot old_ext) (lstrip_dot new_ext) name = Some c ->
       rename_one oracle (lstrip_dot old_ext) (lstrip_dot new_ext) true
                  (RState d n out) name
       = Some (RState d (S n) (out ++ [rename_line true name c])) /\
       exists st' more,
         rename_one oracle (lstrip_dot old_ext) (lstrip_dot new_ext) false
                    (RState d n out) name = Some st' /\
         rs_out st' = out ++ rename_line false name c :: more).
Proof.
  assert (Hplan : forall d name c n out,
       planned_target d (lstrip_dot old_ext) (lstrip_dot new_ext) name = Some c ->
       rename_one oracle (lstrip_dot old_ext) (lstrip_dot new_ext) true
                  (RState d n out) name
       = Some (RState d (S n) (out ++ [rename_line true name c])) /\
       exists st' more,
         rename_one oracle (lstrip_dot old_ext) (lstrip_dot new_ext) false
                    (RState d n out) name = Some st' /\
         rs_out st' = out ++ rename_line false name c :: more).
  { intros d name c n out Hc. split.
    - rewrite rename_one_dry. simpl. by rewrite Hc.
    - unfold planned_target in Hc. unfold rename_one. simpl.
      destruct (is_file d name); [|done]. simpl.
      destruct (match_name _ name) as [m|]; [|done]. rewrite Hc.
      destruct (oracle d name c); eexists _, _; split; try done; simpl.
      by rewrite <- app_assoc. }
  destruct loc as [| |d]; simpl.
  - eexists. split_and!; [done|done| |done]. intros d [=].
  - eexists. split_and!; [done|done| |done]. intros d [=].
  - rewrite rename_loop_dry. eexists. split_and!; [done|done| |done].
    intros d' [= <-]. simpl. split_and!; [done|done|apply dry_lines_length].
Qed.

Lemma dry_run_changes_nothing_witness :
  exists r,
    rename_files no_failure
                 (Folder {[ "report.log" := File "a"; "report.txt" := File "b" ]})
                 "d" "log" "txt" true = Some r /\
    rr_loc r = Folder {[ "report.log" := File "a"; "report.txt" := File "b" ]} /\
    rr_count r = 1 /\
    rr_out r = ["[DRY RUN] Renaming: report.log -> report_1.txt"].
Proof.
  destruct (dry_run_changes_nothing no_failure
              (Folder {[ "report.log" := File "a"; "report.txt" := File "b" ]})
              "d" "log" "txt") as (r & Hr & Hloc & Hd & _).
  exists r. split; [exact Hr|]. split; [exact Hloc|].
  destruct (Hd _ eq_refl) as (Hc & Hout & _). rewrite Hc, Hout.
  split; vm_compute; reflexivity.
Defined.



(** ** Sorting *)

Section Sorting.
Context {A : Type} (leb : A -> A -> bool).
Hypothesis leb_total : forall x y, leb x y = true \/ leb y x = true.
Hypothesis leb_trans : forall x y z, leb x y = true -> leb y z = true -> leb x z = true.





Lemma insert_by_perm x l : insert_by leb x l ≡ₚ x :: l.
Proof.
  induction l as [|y l IH]; simpl; [done|].
  destruct (leb x y); [done|]. rewrite IH. apply Permutation_swap.
Qed.

Lemma sort_by_perm l : sort_by leb l ≡ₚ l.
Proof.
  induction l as [|x l IH]; simpl; [done|]. by rewrite insert_by_perm, IH.
Qed.
End Sorting.


(** ** Further properties of the renamer *)




(** X3.  Whatever the pattern matches, the captured base is not empty,
    holds no line feed, and is a prefix of the name; the rest of the name
    is a well-formed tail. *)
Theorem captured_base_is_nonempty old_ext name base num :
  match_name old_ext name = Some (base, num) ->
  base <> "" /\ str_all not_newline base = true /\
  exists rest, name = base +:+ rest /\ ext_tail old_ext rest = Some num.
Proof.
  intros (r & Hn & Hb & Hnl & Ht & _)%match_name_some. eauto.
Qed.

Lemma captured_base_is_nonempty_witness :
  ".1" <> "" /\ str_all not_newline ".1" = true /\
  exists rest, ".1.1" = ".1" +:+ rest /\ ext_tail "1" rest = Some None.
Proof.
  apply (captured_base_is_nonempty "1" ".1.1" ".1" None). vm_compute. reflexivity.
Defined.

(** A dry run plans every file against the unchanged directory, so
    the targets it announces need not be those of a real run: with [a.LOG]
    and [a.log] in the folder, the dry run announces [a.txt] twice, the
    real run renames to [a.txt] and [a_1.txt]. *)
Example dry_run_may_announce_other_targets :
  rename_files no_failure (Folder {[ "a.LOG" := File "x"; "a.log" := File "y" ]})
               "d" "log" "txt" true
  = Some (RResult 2 (Folder {[ "a.LOG" := File "x"; "a.log" := File "y" ]})
                  ["[DRY RUN] Renaming: a.LOG -> a.txt";
                   "[DRY RUN] Renaming: a.log -> a.txt"]) /\
  rename_files no_failure (Folder {[ "a.LOG" := File "x"; "a.log" := File "y" ]})
               "d" "log" "txt" false
  = Some (RResult 2 (Folder {[ "a.txt" := File "x"; "a_1.txt" := File "y" ]})
                  ["Renaming: a.LOG -> a.txt";
                   "Renaming: a.log -> a_1.txt"]).
Proof. split; vm_compute; reflexivity. Qed.

(** ** The combiner: writing *)

Lemma write_all_reliable env l out :
  reliable env -> write_all env l out = (Ok tt, out ++ l).
Proof.
  intros (_ & Hw & _). revert out. induction l as [|s l IH]; intros out.
  - simpl. unfold ret. by rewrite app_nil_r.
  - cbn [write_all]. unfold bind, write. rewrite Hw, IH.
    by rewrite <- app_assoc.
Qed.

(** Whatever the outcome, what is written is a prefix of what was to be
    written, and all of it when no exception is raised. *)
Lemma write_all_prefix env l out res out' :
  write_all env l out = (res, out') ->
  exists l1, l1 `prefix_of` l /\ out' = out ++ l1 /\
             (forall u, res = Ok u -> l1 = l).
Proof.
  revert out. induction l as [|s l IH]; intros out H.
  - simpl in H. unfold ret in H. simplify_eq. exists []. by rewrite app_nil_r.
  - cbn [write_all] in H. unfold bind, write in H.
    destruct (write_error env out s) eqn:E.
    + simplify_eq. exists []. rewrite app_nil_r. split_and!; [|done|done].
      apply prefix_nil.
    + destruct (IH _ H) as (l1 & Hp & -> & Hok). exists (s :: l1).
      split_and!.
      * by apply prefix_cons.
      * by rewrite <- app_assoc.
      * intros u Hu. by rewrite (Hok u Hu).
Qed.

Lemma file_body_prefix env f out res out' :
  file_body env f out = (res, out') ->
  exists b, b `prefix_of` block_of env f /\ out' = out ++ b /\
            (forall n, res = Ok n ->
                       exists content, e_read f = inr content /\
                                       n = count_newlines content /\
                                       b = block_of env f).
Proof.
  unfold file_body, block_of, bind. destruct (e_read f) as [e|content].
  - unfold raise. intros [= <- <-]. exists []. rewrite app_nil_r.
    split_and!; [done|done|]. intros n [=].
  - unfold ret at 1. unfold write at 1.
    destruct (write_error env out _) eqn:E1.
    { intros [= <- <-]. exists []. rewrite app_nil_r.
      split_and!; [apply prefix_nil|done|]. intros n [=]. }
    unfold write at 1. destruct (write_error env (out ++ _) content) eqn:E2.
    { intros [= <- <-]. eexists [_]. split_and!; [|done|].
      - apply prefix_cons, prefix_nil.
      - intros n [=]. }
    destruct (write_all env (newline_fix content) _) as [res1 out1] eqn:E3.
    apply write_all_prefix in E3 as (l1 & Hp & -> & Hok).
    intros H. exists (separator env f (count_newlines content) :: content :: l1).
    split_and!.
    + by do 2 apply prefix_cons.
    + destruct res1; unfold ret in H; simplify_eq; by rewrite <- !app_assoc.
    + intros n ->. destruct res1 as [u|]; unfold ret in H; [|done].
      simplify_eq. rewrite (Hok u eq_refl). eauto.
Qed.

Lemma process_file_prefix env acc f out acc' out' :
  process_file env acc f out = (acc', out') ->
  exists b, b `prefix_of` block_of env f /\ out' = out ++ b /\
            (files_processed acc' = S (files_processed acc) ->
             exists content, e_read f = inr content /\ b = block_of env f /\
                             total_lines acc' = total_lines acc + count_newlines content).
Proof.
  unfold process_file. destruct (file_body env f out) as [res out1] eqn:E.
  apply file_body_prefix in E as (b & Hp & -> & Hok).
  destruct res as [n|[|msg]]; intros [= <- <-]; exists b; split_and!; try done;
    simpl; try lia.
  intros _. destruct (Hok n eq_refl) as (content & Hr & -> & Hb). eauto.
Qed.

Lemma process_file_reliable env acc f out :
  reliable env ->
  process_file env acc f out
  = match e_read f with
    | inr content =>
        (Counters (S (files_processed acc))
                  (total_lines acc + count_newlines content)
                  (printed acc ++ [MsgProcessed (e_name f) (count_newlines content)]),
         out ++ block_of env f)
    | inl UnicodeDecodeError =>
        (Counters (files_processed acc) (total_lines acc)
                  (printed acc ++ [MsgSkipped (e_name f)]), out)
    | inl (OtherError e) =>
        (Counters (files_processed acc) (total_lines acc)
                  (printed acc ++ [MsgErrorReading (e_name f) e]), out)
    end.
Proof.
  intros Hrel. pose proof Hrel as (_ & Hw & _).
  unfold process_file, file_body, block_of, bind.
  destruct (e_read f) as [[|e]|content]; try done.
  unfold ret at 1. unfold write. rewrite !Hw.
  rewrite write_all_reliable by done. unfold ret.
  by rewrite <- !app_assoc.
Qed.

(** A file that cannot be read changes neither the counters nor the output
    file, whatever the environment. *)
Lemma process_file_read_error env acc f out :
  read_fails f = true ->
  exists msg,
    process_file env acc f out
    = (Counters (files_processed acc) (total_lines acc) (printed acc ++ [msg]), out).
Proof.
  unfold read_fails, process_file, file_body, bind.
  destruct (e_read f) as [[|e]|]; [| |done]; intros _; unfold raise; eauto.
Qed.

Lemma process_files_reliable_count env files acc out :
  reliable env ->
  files_processed (fst (process_files env acc files out))
  = files_processed acc + (length files - read_errors files).
Proof.
  intros Hrel. revert acc out.
  induction files as [|f files IH]; intros acc out; [simpl; lia|].
  cbn [process_files]. rewrite process_file_reliable by done.
  assert (Hle : read_errors files <= length files).
  { unfold read_errors. apply filter_length_le. }
  unfold read_errors in *. cbn [List.filter length]. unfold read_fails at 1.
  destruct (e_read f) as [[|e]|content]; rewrite IH; simpl; lia.
Qed.

(** ** C4: files processed *)

(** C4 (amended).  When the output file is opened, written and closed
    without error, the count returned for a directory is [N] minus the
    number of files whose reading raised, where [N] counts the matching
    regular files other than the output file itself (the entries of the
    glob that pass the filter of line 46); with at least one such file the
    run succeeds.  In every environment a file whose reading raises
    changes neither counters nor output, and the loop goes on with the
    remaining files. *)
Theorem processed_is_total_minus_read_errors
        env globbed rglobbed source_dir output_file file_pattern
        sort_by_date encoding recursive :
  reliable env ->
  let files := fst (select_files globbed rglobbed sort_by_date recursive) in
  let r := combine_files env (SrcDir globbed rglobbed) source_dir output_file
                         file_pattern sort_by_date encoding recursive in
  length files
  = length (List.filter (fun f => e_is_file f && negb (e_is_output f))
                        (if recursive then rglobbed else globbed)) /\
  cr_processed r = length files - read_errors files /\
  (files <> [] -> cr_success r = true) /\
  (forall env' acc f rest out,
      read_fails f = true ->
      exists msg,
        process_files env' acc (f :: rest) out
        = process_files env'
            (Counters (files_processed acc) (total_lines acc) (printed acc ++ [msg]))
            rest out).
Proof.
  intros Hrel files r. subst files r. split_and!.
  - unfold select_files.
    destruct sort_by_date; cbn [fst]; apply Permutation_length, sort_by_perm.
  - unfold combine_files.
    destruct (select_files _ _ _ _) as [files method]. cbn [fst].
    destruct files as [|f files]; [done|].
    pose proof Hrel as (Ho & _ & Hc). rewrite Ho. unfold with_output.
    rewrite write_all_reliable by done.
    pose proof (process_files_reliable_count env (f :: files)
      (Counters 0 0 [MsgFound (length (f :: files)) method;
                     MsgOutputFile output_file; MsgDashes])
      ([] ++ header env (length (f :: files)) method encoding) Hrel) as Hcnt.
    destruct (process_files _ _ _ _) as [acc' out'].
    rewrite write_all_reliable, Hc by done. simpl in *. done.
  - unfold combine_files.
    destruct (select_files _ _ _ _) as [files method]. cbn [fst].
    destruct files as [|f files]; [done|]. intros _.
    pose proof Hrel as (Ho & _ & Hc). rewrite Ho. unfold with_output.
    rewrite write_all_reliable by done.
    destruct (process_files _ _ _ _) as [acc' out'].
    by rewrite write_all_reliable, Hc by done.
  - intros env' acc f rest out Hf.
    destruct (process_file_read_error env' acc f out Hf) as (msg & Hmsg).
    exists msg. cbn [process_files]. by rewrite Hmsg.
Qed.

Lemma sample_env_reliable : reliable sample_env.
Proof. by split_and!. Qed.

Lemma processed_is_total_minus_read_errors_witness :
  let broken := Entry ["b.bin"] true false 50 3 (inl UnicodeDecodeError) in
  let r := combine_files sample_env (SrcDir [sample_file; broken] [])
                         "logs" "all.txt" "*" true "utf-8" false in
  cr_processed r = 2 - 1 /\ cr_success r = true.
Proof.
  cbv zeta.
  destruct (processed_is_total_minus_read_errors sample_env
              [sample_file; Entry ["b.bin"] true false 50 3 (inl UnicodeDecodeError)]
              [] "logs" "all.txt" "*" true "utf-8" false sample_env_reliable)
    as (_ & Hcount & Hok & _).
  split; [exact Hcount|]. apply Hok. discriminate.
Defined.

(** C4, counterexample to the claim as stated.  First: one matching file,
    read without error, but the output file cannot be opened: nothing is
    processed, where [N] minus the read errors is 1.  Second: the pattern
    matches two regular files, both readable, one of them the output file
    of an earlier run: the filter of line 46 leaves it out and one file is
    processed, not two. *)
Lemma unopened_output_processes_nothing :
  (fst (select_files [sample_file] [] true false) = [sample_file] /\
   read_errors [sample_file] = 0 /\
   cr_processed (combine_files env_cannot_open (SrcDir [sample_file] [])
                               "logs" "all.txt" "*" true "utf-8" false) = 0 /\
   cr_success (combine_files env_cannot_open (SrcDir [sample_file] [])
                             "logs" "all.txt" "*" true "utf-8" false) = false) /\
  (length (List.filter e_is_file [sample_file; previous_output]) = 2 /\
   read_errors [sample_file; previous_output] = 0 /\
   cr_processed (combine_files sample_env (SrcDir [sample_file; previous_output] [])
                               "logs" "logs/all.txt" "*" true "utf-8" false) = 1 /\
   cr_success (combine_files sample_env (SrcDir [sample_file; previous_output] [])
                             "logs" "logs/all.txt" "*" true "utf-8" false) = true).
Proof. by split_and!. Qed.

(** ** C5: the footer *)

Lemma file_text_app a b : file_text (a ++ b) = file_text a +:+ file_text b.
Proof.
  unfold file_text. induction a as [|x a IH]; [done|].
  simpl. by rewrite IH, app_assoc_str.
Qed.

(** C5 (amended).  Every run that returns [success = True] has written an
    output file that ends with the footer block whose "Files processed" and
    "Total lines" are the two counts returned. *)
Theorem output_ends_with_footer
        env src source_dir output_file file_pattern sort_by_date encoding recursive :
  let r := combine_files env src source_dir output_file file_pattern
                         sort_by_date encoding recursive in
  cr_success r = true ->
  exists body,
    cr_output r = Some (body ++ footer (cr_processed r) (cr_lines r)) /\
    file_text (body ++ footer (cr_processed r) (cr_lines r))
    = file_text body +:+ file_text (footer (cr_processed r) (cr_lines r)).
Proof.
  cbv zeta. unfold combine_files. destruct src as [| |g rg]; [done..|].
  destruct (select_files _ _ _ _) as [files method].
  destruct files as [|f files]; [done|].
  destruct (open_error env); [done|]. unfold with_output.
  destruct (write_all env (header _ _ _ _) []) as [[u|e] out0]; [|done].
  destruct (process_files _ _ _ _) as [acc' out1].
  destruct (write_all env (footer _ _) out1) as [[u'|e] out2] eqn:E; [|done].
  destruct (close_error env out2); [done|]. intros _. cbn.
  apply write_all_prefix in E as (l1 & _ & -> & Hok).
  rewrite (Hok u' eq_refl). exists out1. split; [done|apply file_text_app].
Qed.

Lemma output_ends_with_footer_witness :
  exists body,
    cr_output (combine_files sample_env (SrcDir [sample_file] []) "logs" "all.txt"
                             "*" true "utf-8" false)
    = Some (body ++ footer 1 1) /\
    file_text (body ++ footer 1 1) = file_text body +:+ file_text (footer 1 1).
Proof.
  apply (output_ends_with_footer sample_env (SrcDir [sample_file] []) "logs"
           "all.txt" "*" true "utf-8" false).
  reflexivity.
Defined.

(** C5, counterexample to the claim as stated: on a full disk the output
    file is created and stays empty; it does not end with the five lines of
    the footer, and the run returns [(0, 0, False)]. *)
Lemma full_disk_leaves_no_footer :
  cr_output (combine_files env_disk_full (SrcDir [sample_file] []) "logs" "all.txt"
                           "*" true "utf-8" false) = Some [] /\
  length (footer 0 0) = 5 /\
  (cr_processed (combine_files env_disk_full (SrcDir [sample_file] []) "logs"
                               "all.txt" "*" true "utf-8" false),
   cr_lines (combine_files env_disk_full (SrcDir [sample_file] []) "logs"
                           "all.txt" "*" true "utf-8" false),
   cr_success (combine_files env_disk_full (SrcDir [sample_file] []) "logs"
                             "all.txt" "*" true "utf-8" false)) = (0, 0, false).
Proof. by split_and!. Qed.

(** ** C6: failures of the output file *)

(** C6: the run at the failing input.  The write of the content of [a.txt]
    raises inside the loop; the handler of the loop catches it, prints
    "Error reading a.txt", and the run goes on: header, separator block and
    footer are written, the function returns [(0, 0, True)] and the exit
    code is 0. *)
Lemma write_error_in_loop_is_swallowed :
  combiner_main env_cannot_encode (SrcDir [unencodable_file] []) "logs" "all.txt"
                "*" false "utf-8" false
  = (0, CResult 0 0 true
          (Some (header env_cannot_encode 1 "creation date" "utf-8"
                 ++ [separator env_cannot_encode unencodable_file 0]
                 ++ footer 0 0))
          [MsgFound 1 "creation date"; MsgOutputFile "all.txt"; MsgDashes;
           MsgErrorReading "a.txt" "codec can't encode character";
           MsgDashes; MsgSuccess 0 0; MsgSavedTo "all.txt"]).
Proof. vm_compute. reflexivity. Qed.



(** X5.  The files combined are the entries of the glob that are regular
    files and not the output file, in another order. *)
Theorem select_files_permutation globbed rglobbed sort_by_date recursive :
  fst (select_files globbed rglobbed sort_by_date recursive)
  ≡ₚ List.filter (fun f => e_is_file f && negb (e_is_output f))
                 (if recursive then rglobbed else globbed).
Proof.
  unfold select_files. destruct sort_by_date; cbn [fst]; apply sort_by_perm.
Qed.

(** ** C7: nothing to combine *)

(** C7.  When the source directory does not exist, is not a directory, or
    yields no file to combine, the output file is not touched, the function
    returns [(0, 0, False)] after printing the reason, and the command exits
    with code 1 after printing the failure line.  For every invocation the
    exit code is 0 exactly when the run succeeded. *)
Theorem no_input_exits_with_failure
        env src source_dir output_file pattern sort_by_name encoding recursive :
  let r := combine_files env src source_dir output_file pattern
                         (negb sort_by_name) encoding recursive in
  let m := combiner_main env src source_dir output_file pattern
                         sort_by_name encoding recursive in
  (fst m = 0 <-> cr_success r = true) /\
  (fst m = 0 \/ fst m = 1) /\
  (no_input src (negb sort_by_name) recursive ->
   cr_output r = None /\
   (cr_processed r, cr_lines r, cr_success r) = (0, 0, false) /\
   (cr_printed r = [MsgNoDirectory source_dir] \/
    cr_printed r = [MsgNotADirectory source_dir] \/
    cr_printed r = [MsgNoFiles pattern source_dir]) /\
   fst m = 1 /\
   cr_output (snd m) = None /\
   cr_printed (snd m) = cr_printed r ++ [MsgDashes; MsgFailed]).
Proof.
  cbv zeta. unfold combiner_main.
  set (r := combine_files _ _ _ _ _ _ _ _).
  split_and!.
  - destruct (cr_success r); simpl; split; done.
  - destruct (cr_success r); simpl; auto.
  - intros Hno.
    assert (H : cr_output r = None /\ cr_success r = false /\
                cr_processed r = 0 /\ cr_lines r = 0 /\
                (cr_printed r = [MsgNoDirectory source_dir] \/
                 cr_printed r = [MsgNotADirectory source_dir] \/
                 cr_printed r = [MsgNoFiles pattern source_dir])).
    { subst r. destruct Hno as [-> | [-> | (g & rg & -> & Hfiles)]];
        [simpl; naive_solver..|].
      unfold combine_files. destruct (select_files _ _ _ _) as [files method].
      simpl in Hfiles. subst files. simpl. naive_solver. }
    destruct H as (Hout & Hs & Hp & Hl & Hmsg). rewrite Hs, Hp, Hl. simpl.
    split_and!; done.
Qed.

Lemma no_input_exits_with_failure_witness :
  fst (combiner_main sample_env (SrcDir [Entry ["sub"] false false 1 0 (inr "")] [])
                     "logs" "all.txt" "*.txt" false "utf-8" false) = 1 /\
  cr_output (snd (combiner_main sample_env
                     (SrcDir [Entry ["sub"] false false 1 0 (inr "")] [])
                     "logs" "all.txt" "*.txt" false "utf-8" false)) = None.
Proof.
  destruct (no_input_exits_with_failure sample_env
              (SrcDir [Entry ["sub"] false false 1 0 (inr "")] [])
              "logs" "all.txt" "*.txt" false "utf-8" false)
    as (_ & _ & H).
  destruct H as (_ & _ & _ & Hcode & Hout & _).
  - right. right. by exists [Entry ["sub"] false false 1 0 (inr "")], [].
  - by split.
Defined.

(** *** The order of paths *)













(** ** C8: the order of the blocks *)




(** ** C9: content and trailing newline *)

Lemma separator_ends_with_newline env f lines :
  ends_with_newline (separator env f lines) = true.
Proof.
  unfold separator. rewrite <- !app_assoc_str. apply ends_with_newline_snoc.
Qed.

Lemma newline_fix_nonempty content :
  content <> "" -> ends_with_newline (content +:+ file_text (newline_fix content)) = true.
Proof.
  intros Hne. unfold newline_fix.
  apply String.eqb_neq in Hne. rewrite Hne. simpl.
  destruct (ends_with_newline content) eqn:E; simpl.
  - by rewrite app_empty_r.
  - apply ends_with_newline_snoc.
Qed.

(** C9 (amended).  For every file counted as processed, what the iteration
    adds to the output file is the separator block of the file, immediately
    followed by the text read from it, unchanged, then a line feed exactly
    when that text is not empty and does not end with one.  So a non-empty
    content, as written, ends with a newline; an empty content adds nothing
    after the separator block; in both cases the next block starts on a
    fresh line. *)
Theorem processed_file_block env acc f out acc' out' :
  process_file env acc f out = (acc', out') ->
  files_processed acc' = S (files_processed acc) ->
  exists content,
    e_read f = inr content /\
    out' = out ++ separator env f (count_newlines content) :: content
               :: newline_fix content /\
    (content <> "" ->
     ends_with_newline (content +:+ file_text (newline_fix content)) = true) /\
    (content = "" -> newline_fix content = []) /\
    ends_with_newline (file_text (separator env f (count_newlines content) :: content
                                    :: newline_fix content)) = true.
Proof.
  intros H Hcount.
  apply process_file_prefix in H as (b & _ & -> & Hfull).
  destruct (Hfull Hcount) as (content & Hr & -> & _).
  exists content. unfold block_of. rewrite Hr. split_and!; try done.
  - apply newline_fix_nonempty.
  - by intros ->.
  - unfold file_text. cbn [foldr]. fold (file_text (newline_fix content)).
    destruct (decide (content = "")) as [->|Hne].
    + simpl. rewrite app_empty_r. apply separator_ends_with_newline.
    + rewrite ends_with_newline_app; [by apply newline_fix_nonempty|].
      destruct content; [done|]. by rewrite app_String.
Qed.

Lemma processed_file_block_witness :
  exists content,
    e_read sample_file = inr content /\
    snd (process_file sample_env (Counters 0 0 []) sample_file [])
    = [] ++ separator sample_env sample_file (count_newlines content) :: content
         :: newline_fix content.
Proof.
  destruct (processed_file_block sample_env (Counters 0 0 []) sample_file []
              (fst (process_file sample_env (Counters 0 0 []) sample_file []))
              (snd (process_file sample_env (Counters 0 0 []) sample_file [])))
    as (content & Hr & Hout & _).
  - reflexivity.
  - reflexivity.
  - exists content. by split.
Defined.

(** C9, counterexample to the claim as stated: an empty file is processed;
    after its separator block the empty content is written and no line
    feed, so the content as written does not end with a newline. *)
Lemma empty_file_gets_no_newline :
  process_file sample_env (Counters 0 0 []) empty_file []
  = (Counters 1 0 [MsgProcessed "empty.txt" 0],
     [separator sample_env empty_file 0; ""]) /\
  ends_with_newline ("" +:+ file_text (newline_fix "")) = false.
Proof. split; vm_compute; reflexivity. Qed.

(* ===================================================================== *)
(** * Part III: further properties of the two scripts                     *)
(* ===================================================================== *)

(** ** The renamer: what a run keeps *)

Lemma map_is_fmap {A B} (f : A -> B) (l : list A) : map f l = f <$> l.
Proof. induction l as [|x l IH]; [done|]. simpl. by rewrite IH. Qed.

Lemma iterdir_sorted_perm (d : gmap string node) :
  iterdir_sorted d ≡ₚ (map_to_list d).*1.
Proof. unfold iterdir_sorted. by rewrite sort_by_perm, map_is_fmap. Qed.

Lemma iterdir_sorted_NoDup (d : gmap string node) : NoDup (iterdir_sorted d).
Proof. rewrite iterdir_sorted_perm. apply NoDup_fst_map_to_list. Qed.

Lemma iterdir_sorted_lookup (d : gmap string node) name :
  name ∈ iterdir_sorted d -> is_Some (d !! name).
Proof.
  rewrite iterdir_sorted_perm. intros [[n nd] [-> H]]%list_elem_of_fmap.
  apply elem_of_map_to_list in H. by exists nd.
Qed.

Lemma path_exists_false_lookup (d : gmap string node) name :
  path_exists d name = false -> d !! name = None.
Proof. unfold path_exists. by destruct (d !! name). Qed.

Lemma is_file_lookup (d : gmap string node) name :
  is_file d name = true -> exists data, d !! name = Some (File data).
Proof. unfold is_file. destruct (d !! name) as [[data|]|]; try done. eauto. Qed.


(** The cases of one iteration of a real run. *)
Lemma rename_one_real oracle old new st name :
  (matches (rs_dir st) old name = false /\
   rename_one oracle old new false st name = Some st) \/
  (matches (rs_dir st) old name = true /\
   exists c nd,
     planned_target (rs_dir st) old new name = Some c /\
     rs_dir st !! name = Some nd /\ rs_dir st !! c = None /\
     ((oracle (rs_dir st) name c = None /\
       rename_one oracle old new false st name
       = Some (RState (os_rename (rs_dir st) name c) (S (rs_count st))
                      (rs_out st ++ [rename_line false name c]))) \/
      (exists e, oracle (rs_dir st) name c = Some e /\
                 rename_one oracle old new false st name
                 = Some (RState (rs_dir st) (rs_count st)
                                (rs_out st ++ [rename_line false name c;
                                               "  Error renaming " +:+ name
                                               +:+ ": " +:+ e]))))).
Proof.
  unfold matches, planned_target, rename_one.
  destruct (is_file (rs_dir st) name) eqn:Hf; simpl; [|left; by destruct st].
  destruct (match_name old name) as [m|]; [|left; by destruct st].
  right. split; [done|].
  destruct (resolve_target_total (rs_dir st) (new_name new m)) as (c & Hc & Hfree).
  rewrite Hc. apply is_file_lookup in Hf as (data & Hd).
  exists c, (File data). split_and!; [done|done|by apply path_exists_false_lookup|].
  destruct (oracle (rs_dir st) name c) as [e|]; [right|left; done].
  exists e. split; [done|]. by rewrite <- app_assoc.
Qed.





Lemma matches_lookup (d d' : gmap string node) old name :
  d' !! name = d !! name -> matches d' old name = matches d old name.
Proof. unfold matches, is_file. by intros ->. Qed.





(** ** The renamer: the count of a real run *)

(** The loop over a listing without repetition, each name of which is
    still in the directory as it was in [d0]. *)
Lemma rename_loop_real oracle old new names :
  forall st (d0 : gmap string node),
    NoDup names ->
    (forall y, y ∈ names -> is_Some (d0 !! y) /\ rs_dir st !! y = d0 !! y) ->
    exists st',
      rename_loop oracle old new false st names = Some st' /\
      rs_count st' <= rs_count st + length (List.filter (matches d0 old) names) /\
      ((forall d a b, oracle d a b = None) ->
       rs_count st' = rs_count st + length (List.filter (matches d0 old) names)) /\
      ((forall d a b, oracle d a b <> None) ->
       rs_count st' = rs_count st /\ rs_dir st' = rs_dir st).
Proof.
  induction names as [|x names IH]; intros st d0 Hnd Hinv.
  - exists st. simpl. split_and!; [done|lia|intros; lia|done].
  - apply NoDup_cons in Hnd as [Hx Hnd].
    destruct (Hinv x) as [Hsome Hlook]; [by left|].
    assert (Hm : matches (rs_dir st) old x = matches d0 old x)
      by (by apply matches_lookup).
    assert (Htail : forall y, y ∈ names ->
              is_Some (d0 !! y) /\ rs_dir st !! y = d0 !! y)
      by (intros y Hy; apply Hinv; by right).
    cbn [rename_loop List.filter].
    destruct (rename_one_real oracle old new st x)
      as [[Hno ->]|(Hyes & c & nd & _ & Hn & Hc & [[Hok ->]|(e & Hrej & ->)])].
    + rewrite <- Hm, Hno. by apply IH.
    + rewrite <- Hm, Hyes.
      destruct (IH (RState (os_rename (rs_dir st) x c) (S (rs_count st))
                           (rs_out st ++ [rename_line false x c])) d0 Hnd)
        as (st' & Hrun & Hle & Heq & _).
      { intros y Hy. destruct (Htail y Hy) as [Hs Hl]. split; [done|]. simpl.
        unfold os_rename. rewrite Hn.
        rewrite lookup_insert_ne, lookup_delete_ne; [done| |].
        - intros ->. done.
        - intros ->. rewrite Hc in Hl. rewrite <- Hl in Hs. by destruct Hs. }
      exists st'. simpl in *. split_and!; [done|lia| |].
      * intros Hall. rewrite (Heq Hall). lia.
      * intros Hall. by destruct (Hall (rs_dir st) x c).
    + rewrite <- Hm, Hyes.
      destruct (IH (RState (rs_dir st) (rs_count st)
                           (rs_out st ++ [rename_line false x c;
                                          "  Error renaming " +:+ x +:+ ": " +:+ e]))
                   d0 Hnd) as (st' & Hrun & Hle & _ & Hrefuse); [done|].
      exists st'. simpl in *. split_and!; [done|lia| |done].
      intros Hall. rewrite Hall in Hrej. done.
Qed.

Lemma rename_loop_real_listing oracle old new (d : gmap string node) :
  exists st',
    rename_loop oracle old new false (RState d 0 []) (iterdir_sorted d) = Some st' /\
    rs_count st' <= length (List.filter (matches d old) (iterdir_sorted d)) /\
    ((forall d a b, oracle d a b = None) ->
     rs_count st' = length (List.filter (matches d old) (iterdir_sorted d))) /\
    ((forall d a b, oracle d a b <> None) -> rs_count st' = 0 /\ rs_dir st' = d).
Proof.
  destruct (rename_loop_real oracle old new (iterdir_sorted d) (RState d 0 []) d)
    as (st' & Hrun & Hle & Heq & Hrefuse).
  - apply iterdir_sorted_NoDup.
  - intros y Hy. split; [by apply iterdir_sorted_lookup|done].
  - exists st'. simpl in *. done.
Qed.


(** X9.  When the operating system refuses every rename, a real run
    changes nothing and returns 0, and [main] then prints the line "No
    files matching ... found", also when matching files exist and their
    errors were printed just before. *)
Theorem refused_renames_report_no_files oracle d folder old_ext new_ext :
  (forall d a b, oracle d a b <> None) ->
  exists r,
    rename_files oracle (Folder d) folder old_ext new_ext false = Some r /\
    rr_count r = 0 /\ rr_loc r = Folder d /\
    renamer_main oracle (Folder d) folder old_ext new_ext false
    = Some (RResult 0 (Folder d)
                    (rr_out r ++ [""; "No files matching '*." +:+ old_ext
                                      +:+ "*' found in " +:+ folder])).
Proof.
  intros Hall. unfold renamer_main, rename_files.
  destruct (rename_loop_real_listing oracle (lstrip_dot old_ext)
              (lstrip_dot new_ext) d) as (st & -> & _ & _ & Hrefuse).
  destruct (Hrefuse Hall) as [Hc Hd].
  eexists. split_and!; [done|done|by rewrite Hd|].
  cbn [rr_count rr_loc rr_out]. by rewrite Hc, Hd.
Qed.

Lemma refused_renames_report_no_files_witness :
  renamer_main always_refuses (Folder {[ "a.log" := File "x" ]}) "logs" "log" "txt"
               false
  = Some (RResult 0 (Folder {[ "a.log" := File "x" ]})
                  ["Renaming: a.log -> a.txt";
                   "  Error renaming a.log: Permission denied";
                   "";
                   "No files matching '*.log*' found in logs"]).
Proof.
  destruct (refused_renames_report_no_files always_refuses
              {[ "a.log" := File "x" ]} "logs" "log" "txt")
    as (r & Hr & _ & _ & Hmain).
  - intros d a b. discriminate.
  - rewrite Hmain. vm_compute in Hr. injection Hr as <-. reflexivity.
Defined.

(** ** The renamer: the tokens *)

Lemma strip_ci_lower a b s :
  str_map lower a = str_map lower b -> strip_ci a s = strip_ci b s.
Proof.
  revert b s. induction a as [|c a IH]; intros [|c' b] s H; simplify_eq/=; [done|].
  destruct s as [|x s]; [done|]. rewrite H. destruct (Ascii.eqb _ _); [|done].
  by apply IH.
Qed.

Lemma ext_tail_ci old old' r :
  ci_eqb old old' = true -> ext_tail old r = ext_tail old' r.
Proof.
  unfold ci_eqb. intros H%String.eqb_eq. unfold ext_tail.
  destruct r as [|c r]; [done|]. by rewrite (strip_ci_lower old old' r H).
Qed.

Lemma match_name_ci old old' name :
  ci_eqb old old' = true -> match_name old name = match_name old' name.
Proof.
  intros H. unfold match_name. rewrite !re_match_pattern. unfold step1.
  destruct name as [|c name]; [done|]. destruct (not_newline c); [|done].
  rewrite (star_ext _ _ _ _ (after_base old) (after_base old')); [done|].
  intros g pre rest. unfold after_base. by rewrite (ext_tail_ci old old').
Qed.

Lemma rename_loop_ext oracle old old' new dry names st :
  (forall name, match_name old name = match_name old' name) ->
  rename_loop oracle old new dry st names = rename_loop oracle old' new dry st names.
Proof.
  intros H. revert st. induction names as [|x names IH]; intros st; [done|].
  cbn [rename_loop]. unfold rename_one. rewrite (H x).
  destruct (is_file (rs_dir st) x); simpl; [|apply IH].
  destruct (match_name old' x) as [m|]; [|apply IH].
  destruct (resolve_target _ _) as [c|]; [|done].
  destruct dry; [apply IH|]. destruct (oracle _ _ _); apply IH.
Qed.

(** X10.  The old extension may be given in any letter case and both
    tokens with or without leading dots: two calls whose old tokens agree
    up to case and leading dots, and whose new tokens agree up to leading
    dots, do the same to every folder. *)
Theorem tokens_up_to_case_and_dots
        oracle loc folder old_ext old_ext' new_ext new_ext' dry_run :
  ci_eqb (lstrip_dot old_ext) (lstrip_dot old_ext') = true ->
  lstrip_dot new_ext = lstrip_dot new_ext' ->
  rename_files oracle loc folder old_ext new_ext dry_run
  = rename_files oracle loc folder old_ext' new_ext' dry_run.
Proof.
  intros Hold Hnew. unfold rename_files. destruct loc as [| |d]; [done..|].
  rewrite Hnew.
  rewrite (rename_loop_ext oracle (lstrip_dot old_ext) (lstrip_dot old_ext'));
    [done|].
  intros name. by apply match_name_ci.
Qed.

Lemma tokens_up_to_case_and_dots_witness :
  rename_files no_failure (Folder {[ "a.Log" := File "x" ]}) "d" ".LOG" ".txt" false
  = rename_files no_failure (Folder {[ "a.Log" := File "x" ]}) "d" "log" "txt" false.
Proof.
  apply (tokens_up_to_case_and_dots no_failure (Folder {[ "a.Log" := File "x" ]})
           "d" ".LOG" "log" ".txt" "txt" false); reflexivity.
Defined.

(** ** The renamer: a line feed at the end of a name *)

Lemma not_newline_lower c : not_newline (lower c) = not_newline c.
Proof. ascii_cases c. Qed.

Lemma ci_eqb_no_newline e old :
  ci_eqb e old = true -> str_all not_newline e = str_all not_newline old.
Proof.
  unfold ci_eqb. intros H%String.eqb_eq. revert old H.
  induction e as [|c e IH]; intros [|c' old] H; simplify_eq/=; [done|].
  rewrite <- (not_newline_lower c), <- (not_newline_lower c'), H.
  by rewrite (IH old).
Qed.

Lemma digits_app_nl d :
  str_all is_digit d = true ->
  take_digits (d +:+ nl) = d /\ drop_digits (d +:+ nl) = nl.
Proof.
  induction d as [|c d IH]; [done|]. intros [Hc Hd]%andb_prop.
  rewrite app_String. cbn [take_digits drop_digits]. rewrite Hc.
  destruct (IH Hd) as [-> ->]. done.
Qed.

Lemma number_part_digits_nl d : digits d -> number_part (d +:+ nl) = Some d.
Proof.
  intros [Hne Hd]. unfold number_part. destruct (digits_app_nl d Hd) as [Ht Hr].
  destruct d as [|c d]; [done|]. simpl in Hd. apply andb_prop in Hd as [Hc _].
  rewrite app_String in *. rewrite (digit_not_dot _ Hc), Ht, Hr. done.
Qed.

Lemma group_part_form_nl t num :
  digit_group t num -> group_part (t +:+ nl) = Some num.
Proof.
  unfold group_part. destruct 1 as [|d Hd|d Hd].
  - done.
  - by rewrite number_part_digits_nl.
  - destruct Hd as [Hne Hd]. unfold number_part.
    change (("." +:+ d) +:+ nl) with (String "."%char (d +:+ nl)).
    cbn [Ascii.eqb Bool.eqb]. destruct (digits_app_nl d Hd) as [-> ->].
    destruct d; done.
Qed.

Lemma ext_tail_form_nl old e t num :
  ci_eqb e old = true -> digit_group t num ->
  ext_tail old (("." +:+ e +:+ t) +:+ nl) = Some num.
Proof.
  intros He Ht.
  change (("." +:+ e +:+ t) +:+ nl) with (String "."%char ((e +:+ t) +:+ nl)).
  cbn [ext_tail Ascii.eqb Bool.eqb]. rewrite app_assoc_str, strip_ci_app by done.
  by apply group_part_form_nl.
Qed.

Lemma app_nl_split a b r :
  a +:+ nl = b +:+ r -> r <> "" -> exists r0, r = r0 +:+ nl /\ a = b +:+ r0.
Proof.
  revert a. induction b as [|c b IH]; intros a H Hr.
  - exists a. by rewrite app_empty_l in *.
  - destruct a as [|c' a].
    + rewrite app_empty_l, app_String in H. injection H as _ H.
      symmetry in H. by apply app_eq_empty in H as [_ ->].
    + rewrite !app_String in H. injection H as -> H.
      destruct (IH a H Hr) as (r0 & -> & ->). by exists r0.
Qed.

(** X11.  [$] also matches before a line feed that ends the name: when
    [name] reads [<base>.<old>], with or without a digit group after it,
    with the longest such base, and the old extension holds no
    line feed, the name [name] followed by one line feed is matched with
    the same base and digit group, so that file gets the new name of
    [name] and the line feed is lost. *)
Theorem trailing_line_feed_is_dropped old_ext name base num :
  name_form (lstrip_dot old_ext) name base num ->
  greedy_base (lstrip_dot old_ext) name base ->
  str_all not_newline (lstrip_dot old_ext) = true ->
  match_name (lstrip_dot old_ext) (name +:+ nl) = Some (base, num) /\
  match_name (lstrip_dot old_ext) (name +:+ nl)
  = match_name (lstrip_dot old_ext) name.
Proof.
  set (old := lstrip_dot old_ext). intros Hf Hg Hold.
  assert (Hplain : match_name old name = Some (base, num)).
  { pose proof (greedy_longest _ _ _ _ Hf Hg) as Hmax.
    destruct Hf as (Hb & Hnl & e & t & Hn & He & Ht).
    apply (match_name_complete _ _ base ("." +:+ e +:+ t)); try done.
    by apply ext_tail_form. }
  assert (Hnl : match_name old (name +:+ nl) = Some (base, num)); [|by rewrite Hnl].
  destruct Hf as (Hb & Hbase & e & t & Hn & He & Ht).
  apply (match_name_complete _ _ base (("." +:+ e +:+ t) +:+ nl)); try done.
  - by rewrite Hn, app_assoc_str.
  - by apply ext_tail_form_nl.
  - intros b' r' Hn' Hb' Hnl' Hlt.
    destruct (ext_tail old r') as [num'|] eqn:E; [|done]. exfalso.
    assert (Hr' : r' <> "") by (intros ->; done).
    apply app_nl_split in Hn' as (r0 & -> & Hn0); [|done].
    apply ext_tail_inv in E as (e' & t0 & He' & Ht0 & [Hr|Hr]).
    + (* the line feed would belong to the extension or the digits *)
      assert (Hend : ends_with_newline ("." +:+ e' +:+ t0) = true)
        by (rewrite <- Hr; apply ends_with_newline_snoc).
      destruct (decide (t0 = "")) as [->|Ht0ne].
      * rewrite app_empty_r in Hend.
        pose proof (ci_eqb_no_newline _ _ He') as Hno. rewrite Hold in Hno.
        destruct e' as [|c e']; [done|].
        rewrite ends_with_newline_app in Hend by done.
        clear -Hend Hno. induction e' as [|c' e' IH] in c, Hend, Hno |- *.
        -- simpl in *. unfold not_newline in Hno. by rewrite Hend in Hno.
        -- simpl in Hno. apply andb_prop in Hno as [_ Hno]. by apply (IH c').
      * rewrite <- !app_assoc_str, ends_with_newline_app in Hend by done.
        by rewrite (digit_group_no_newline _ _ Ht0 Ht0ne) in Hend.
    + rewrite <- !app_assoc_str in Hr. apply app_inv_tail_str in Hr.
      rewrite !app_assoc_str in Hr. subst r0.
      assert (Hform : name_form old name b' num') by (split_and!; eauto).
      apply Hg in Hform. lia.
Qed.

Lemma trailing_line_feed_is_dropped_witness :
  match_name "log" ("report.log.2" +:+ nl) = Some ("report", Some "2") /\
  match_name "log" ("report.log.2" +:+ nl) = match_name "log" "report.log.2".
Proof.
  apply (trailing_line_feed_is_dropped "log" "report.log.2" "report" (Some "2")).
  - split_and!; [done|done|]. exists "log", ".2".
    split_and!; [done|done|]. by apply (dg_dotted "2").
  - apply greedy_check_sound. vm_compute. reflexivity.
  - reflexivity.
Defined.

(** ** The renamer: the targets *)








(** ** The combiner: a run with a reliable output file *)

Lemma process_files_reliable env files acc out :
  reliable env ->
  exists msgs,
    process_files env acc files out
    = (Counters (files_processed acc + (length files - read_errors files))
                (total_lines acc + list_sum (map lines_of files))
                (printed acc ++ msgs),
       out ++ concat (map (block_of env) files)).
Proof.
  intros Hrel. revert acc out.
  induction files as [|f files IH]; intros acc out.
  - exists []. simpl. rewrite !Nat.add_0_r, !app_nil_r. by destruct acc.
  - cbn [process_files]. rewrite process_file_reliable by done.
    assert (Hle : read_errors files <= length files)
      by (unfold read_errors; apply filter_length_le).
    unfold read_errors in *. cbn [List.filter length map list_sum concat].
    unfold read_fails at 1, lines_of at 1, block_of.
    destruct (e_read f) as [[|e]|content];
      match goal with |- context [process_files env ?a files ?o] =>
        destruct (IH a o) as (msgs & ->) end;
      eexists (_ :: msgs); cbn [files_processed total_lines printed length];
      rewrite <- ?app_assoc; cbn [app];
      repeat match goal with
             | |- (_, _) = (_, _) => apply pair_equal_spec; split
             | |- Counters _ _ _ = Counters _ _ _ => f_equal
             end; try done; simpl; try lia.
Qed.

Lemma combine_files_reliable
      env globbed rglobbed source_dir output_file file_pattern
      sort_by_date encoding recursive files method :
  reliable env ->
  select_files globbed rglobbed sort_by_date recursive = (files, method) ->
  files <> [] ->
  let r := combine_files env (SrcDir globbed rglobbed) source_dir output_file
                         file_pattern sort_by_date encoding recursive in
  cr_success r = true /\
  cr_processed r = length files - read_errors files /\
  cr_lines r = list_sum (map lines_of files) /\
  cr_output r
  = Some (header env (length files) method encoding
          ++ concat (map (block_of env) files)
          ++ footer (cr_processed r) (cr_lines r)).
Proof.
  intros Hrel Hsel Hne. cbv zeta. unfold combine_files. rewrite Hsel.
  destruct files as [|f files]; [done|].
  pose proof Hrel as (Ho & _ & Hc). rewrite Ho. unfold with_output.
  rewrite write_all_reliable by done.
  destruct (process_files_reliable env (f :: files)
    (Counters 0 0 [MsgFound (length (f :: files)) method;
                   MsgOutputFile output_file; MsgDashes])
    ([] ++ header env (length (f :: files)) method encoding) Hrel)
    as (msgs & ->).
  rewrite write_all_reliable, Hc by done.
  cbn [cr_success cr_processed cr_lines cr_output files_processed total_lines].
  split_and!; [done|done|done|]. by rewrite <- !app_assoc.
Qed.

(** X13.  When the output file is opened, written and closed without
    error and there is at least one file to combine, the run succeeds and
    the file written is exactly: the six lines of the header, then, for
    each file in the order of the sort, its separator block, the text read
    from it and a line feed if that text is not empty and lacks one (nothing
    at all for a file that could not be read), then the five lines of the
    footer. *)
Theorem reliable_run_writes_header_blocks_footer
        env globbed rglobbed source_dir output_file file_pattern
        sort_by_date encoding recursive :
  reliable env ->
  fst (select_files globbed rglobbed sort_by_date recursive) <> [] ->
  let files := fst (select_files globbed rglobbed sort_by_date recursive) in
  let method := snd (select_files globbed rglobbed sort_by_date recursive) in
  let r := combine_files env (SrcDir globbed rglobbed) source_dir output_file
                         file_pattern sort_by_date encoding recursive in
  cr_success r = true /\
  cr_output r
  = Some (header env (length files) method encoding
          ++ concat (map (block_of env) files)
          ++ footer (cr_processed r) (cr_lines r)).
Proof.
  intros Hrel Hne. cbv zeta.
  destruct (select_files globbed rglobbed sort_by_date recursive)
    as [files method] eqn:Hsel.
  destruct (combine_files_reliable env globbed rglobbed source_dir output_file
              file_pattern sort_by_date encoding recursive files method
              Hrel Hsel Hne) as (Hs & _ & _ & Hout).
  done.
Qed.

Lemma reliable_run_writes_header_blocks_footer_witness :
  cr_output (combine_files sample_env (SrcDir [sample_file; unreadable_a] [])
                           "logs" "all.txt" "*" true "utf-8" false)
  = Some (header sample_env 2 "creation date" "utf-8"
          ++ [separator sample_env sample_file 1; "hello" +:+ nl]
          ++ footer 1 1).
Proof.
  destruct (reliable_run_writes_header_blocks_footer sample_env
              [sample_file; unreadable_a] [] "logs" "all.txt" "*" true "utf-8"
              false sample_env_reliable) as (_ & Hout).
  - discriminate.
  - rewrite Hout. vm_compute. reflexivity.
Defined.

(** X14.  With a reliable output file the "total lines" returned is the
    number of line feeds in the texts read, summed over the files that
    could be read: a last line without line feed is not counted, and
    neither is the line feed the combiner adds after it. *)
Theorem total_lines_counts_line_feeds
        env globbed rglobbed source_dir output_file file_pattern
        sort_by_date encoding recursive :
  reliable env ->
  cr_lines (combine_files env (SrcDir globbed rglobbed) source_dir output_file
                          file_pattern sort_by_date encoding recursive)
  = list_sum (map lines_of
                  (fst (select_files globbed rglobbed sort_by_date recursive))).
Proof.
  intros Hrel.
  destruct (select_files globbed rglobbed sort_by_date recursive)
    as [files method] eqn:Hsel.
  destruct files as [|f files].
  - unfold combine_files. by rewrite Hsel.
  - destruct (combine_files_reliable env globbed rglobbed source_dir output_file
                file_pattern sort_by_date encoding recursive (f :: files) method
                Hrel Hsel) as (_ & _ & Hl & _); done.
Qed.

Lemma total_lines_counts_line_feeds_witness :
  cr_lines (combine_files sample_env
              (SrcDir [Entry ["n.txt"] true false 1 3 (inr ("a" +:+ nl +:+ "b"));
                       sample_file] [])
              "logs" "all.txt" "*" true "utf-8" false) = 1 + 1.
Proof.
  rewrite (total_lines_counts_line_feeds sample_env
             [Entry ["n.txt"] true false 1 3 (inr ("a" +:+ nl +:+ "b")); sample_file]
             [] "logs" "all.txt" "*" true "utf-8" false sample_env_reliable).
  reflexivity.
Defined.

(** X15.  A run in which no file could be read still succeeds when the
    output file is reliable: it returns [(0, 0, True)], the output file
    holds the header and the footer only, and the command prints the
    success line and exits with code 0. *)
Theorem unreadable_files_still_succeed
        env globbed rglobbed source_dir output_file pattern
        sort_by_name encoding recursive :
  reliable env ->
  fst (select_files globbed rglobbed (negb sort_by_name) recursive) <> [] ->
  Forall (fun f => read_fails f = true)
         (fst (select_files globbed rglobbed (negb sort_by_name) recursive)) ->
  let files := fst (select_files globbed rglobbed (negb sort_by_name) recursive) in
  let method := snd (select_files globbed rglobbed (negb sort_by_name) recursive) in
  let m := combiner_main env (SrcDir globbed rglobbed) source_dir output_file
                         pattern sort_by_name encoding recursive in
  fst m = 0 /\
  (cr_processed (snd m), cr_lines (snd m), cr_success (snd m)) = (0, 0, true) /\
  cr_output (snd m)
  = Some (header env (length files) method encoding ++ footer 0 0) /\
  exists before,
    cr_printed (snd m)
    = before ++ [MsgDashes; MsgSuccess 0 0; MsgSavedTo output_file].
Proof.
  intros Hrel Hne Hall. cbv zeta.
  destruct (select_files globbed rglobbed (negb sort_by_name) recursive)
    as [files method] eqn:Hsel. cbn [fst snd] in *.
  destruct (combine_files_reliable env globbed rglobbed source_dir output_file
              pattern (negb sort_by_name) encoding recursive files method
              Hrel Hsel Hne) as (Hs & Hp & Hl & Hout).
  assert (Herr : read_errors files = length files).
  { unfold read_errors. clear -Hall. induction Hall as [|f l Hf _ IH]; [done|].
    cbn [List.filter]. rewrite Hf. simpl. by rewrite IH. }
  assert (Hlines : list_sum (map lines_of files) = 0).
  { clear -Hall. induction Hall as [|f l Hf _ IH]; [done|].
    change (list_sum (map lines_of (f :: l)))
      with (lines_of f + list_sum (map lines_of l)).
    rewrite IH. unfold lines_of, read_fails in *.
    by destruct (e_read f). }
  assert (Hblocks : concat (map (block_of env) files) = []).
  { clear -Hall. induction Hall as [|f l Hf _ IH]; [done|].
    cbn [map concat]. rewrite IH. unfold block_of, read_fails in *.
    by destruct (e_read f). }
  rewrite Herr, Nat.sub_diag in Hp. rewrite Hlines in Hl.
  rewrite Hp, Hl, Hblocks in Hout. cbn [app] in Hout.
  unfold combiner_main. cbv zeta. rewrite Hs. cbn [fst snd cr_processed cr_lines
    cr_success cr_output cr_printed]. rewrite Hp, Hl, Hout.
  split_and!; [done|done|done|]. by eexists.
Qed.

Lemma unreadable_files_still_succeed_witness :
  fst (combiner_main sample_env (SrcDir [unreadable_a; unreadable_b] []) "logs"
                     "all.txt" "*" false "utf-8" false) = 0 /\
  cr_output (snd (combiner_main sample_env (SrcDir [unreadable_a; unreadable_b] [])
                                "logs" "all.txt" "*" false "utf-8" false))
  = Some (header sample_env 2 "creation date" "utf-8" ++ footer 0 0).
Proof.
  destruct (unreadable_files_still_succeed sample_env [unreadable_a; unreadable_b]
              [] "logs" "all.txt" "*" false "utf-8" false sample_env_reliable)
    as (Hcode & _ & Hout & _).
  - discriminate.
  - repeat constructor.
  - split; [exact Hcode|exact Hout].
Defined.

(** ** The combiner: what is printed, whatever the output file does *)

Lemma process_file_message env acc f out :
  exists m,
    printed (fst (process_file env acc f out)) = printed acc ++ [m] /\
    files_processed (fst (process_file env acc f out))
    = files_processed acc + (if is_processed_msg m then 1 else 0) /\
    total_lines (fst (process_file env acc f out))
    = total_lines acc + processed_lines m.
Proof.
  unfold process_file. destruct (file_body env f out) as [[lines|[|e]] out'];
    eexists; cbn [fst printed files_processed total_lines];
    (split; [reflexivity|]); cbn [is_processed_msg processed_lines]; lia.
Qed.

Lemma process_files_messages env files acc out :
  exists msgs,
    printed (fst (process_files env acc files out)) = printed acc ++ msgs /\
    length msgs = length files /\
    files_processed (fst (process_files env acc files out))
    = files_processed acc + length (List.filter is_processed_msg msgs) /\
    total_lines (fst (process_files env acc files out))
    = total_lines acc + list_sum (map processed_lines msgs).
Proof.
  revert acc out. induction files as [|f files IH]; intros acc out.
  - exists []. cbn [process_files fst]. rewrite app_nil_r. simpl.
    split_and!; try done; lia.
  - cbn [process_files].
    destruct (process_file_message env acc f out) as (m & Hm & Hp & Hl).
    destruct (process_file env acc f out) as [acc1 out1]. cbn [fst] in *.
    destruct (IH acc1 out1) as (msgs & Hms & Hlen & Hps & Hls).
    exists (m :: msgs). rewrite Hms, Hps, Hls, Hm, Hp, Hl, <- app_assoc.
    split; [done|]. split; [simpl; lia|]. cbn [List.filter map].
    change (list_sum (processed_lines m :: map processed_lines msgs))
      with (processed_lines m + list_sum (map processed_lines msgs)).
    destruct (is_processed_msg m); cbn [length]; lia.
Qed.

Lemma with_output_messages env files method encoding acc :
  exists msgs,
    printed (with_output env files method encoding acc).1.2
    = printed acc ++ msgs /\
    length msgs <= length files /\
    files_processed (with_output env files method encoding acc).1.2
    = files_processed acc + length (List.filter is_processed_msg msgs) /\
    total_lines (with_output env files method encoding acc).1.2
    = total_lines acc + list_sum (map processed_lines msgs).
Proof.
  unfold with_output.
  destruct (write_all env (header env (length files) method encoding) [])
    as [[[]|e] out].
  - destruct (process_files_messages env files acc out)
      as (msgs & Hm & Hlen & Hp & Hl).
    destruct (process_files env acc files out) as [acc' out']. cbn [fst] in *.
    exists msgs.
    destruct (write_all env _ out') as [[[]|e] out''];
      [destruct (close_error env out'')|]; cbn [fst snd];
      split_and!; try done; lia.
  - exists []. cbn [fst snd]. rewrite app_nil_r. simpl.
    split_and!; try done; lia.
Qed.

(** X16.  Whatever the output file does, the two counts returned agree
    with what was printed: "files processed" is the number of lines
    [Processed: <name> (<n> lines)] printed, "total lines" is the sum of
    the [<n>] of these lines, and no more files are processed than were
    found. *)
Theorem counts_agree_with_printed_lines
        env globbed rglobbed source_dir output_file file_pattern
        sort_by_date encoding recursive :
  let r := combine_files env (SrcDir globbed rglobbed) source_dir output_file
                         file_pattern sort_by_date encoding recursive in
  cr_processed r = length (List.filter is_processed_msg (cr_printed r)) /\
  cr_lines r = list_sum (map processed_lines (cr_printed r)) /\
  cr_processed r
  <= length (fst (select_files globbed rglobbed sort_by_date recursive)).
Proof.
  cbv zeta. unfold combine_files.
  destruct (select_files globbed rglobbed sort_by_date recursive)
    as [files method]. cbn [fst].
  destruct files as [|f files]; [simpl; split_and!; lia|].
  destruct (open_error env) as [e|]; [simpl; split_and!; lia|].
  destruct (with_output_messages env (f :: files) method encoding
              (Counters 0 0 [MsgFound (length (f :: files)) method;
                             MsgOutputFile output_file; MsgDashes]))
    as (msgs & Hm & Hlen & Hp & Hl).
  assert (Hle : length (List.filter is_processed_msg msgs) <= length msgs)
    by apply filter_length_le.
  destruct (with_output env (f :: files) method encoding _)
    as [[[[]|e] acc'] out]; cbn [fst snd] in *;
    cbn [cr_processed cr_lines cr_printed];
    rewrite Hm, Hp, Hl; cbn [printed files_processed total_lines];
    rewrite ?List.filter_app, ?map_app, ?list_sum_app, ?length_app;
    simpl in *; split_and!; lia.
Qed.

(** ** The combiner: when the output file is touched *)


(** ** The combiner: the sort is stable *)

Section Stability.
Context {A : Type} (leb : A -> A -> bool) (p : A -> bool).
Hypothesis p_class : forall a y, p a = true -> p y = true -> leb a y = true.

Lemma insert_by_filter a l :
  List.filter p (insert_by leb a l) = List.filter p (a :: l).
Proof.
  induction l as [|y l IH]; [done|]. cbn [insert_by].
  destruct (leb a y) eqn:Hleb; [done|].
  cbn [List.filter] in *. rewrite IH.
  destruct (p a) eqn:Ha, (p y) eqn:Hy; try done.
  by rewrite (p_class a y) in Hleb.
Qed.

Lemma sort_by_filter l :
  List.filter p (sort_by leb l) = List.filter p l.
Proof.
  induction l as [|a l IH]; [done|]. cbn [sort_by].
  rewrite insert_by_filter. cbn [List.filter]. by rewrite IH.
Qed.
End Stability.

(** X18.  The sort by creation time is stable: the files to combine that
    share one creation timestamp keep, among themselves, the order in which
    glob (rglob when recursive) returned them. *)
Theorem equal_ctime_keeps_glob_order globbed rglobbed recursive (t : Z) :
  List.filter (fun f => (e_ctime f =? t)%Z)
              (fst (select_files globbed rglobbed true recursive))
  = List.filter (fun f => (e_ctime f =? t)%Z)
                (List.filter (fun f => e_is_file f && negb (e_is_output f))
                             (if recursive then rglobbed else globbed)).
Proof.
  unfold select_files. cbn [fst]. apply sort_by_filter.
  intros a y Ha Hy. unfold ctime_leb. lia.
Qed.
